(** * The profile endpoint (api/profile/index.js)

    A shallow embedding of the request handler and of the store it
    talks to.  The relational store is a pair of optional tables; every
    call that leaves the process (pool.connect, client.query, pool.query,
    and res.status(..).json(..), in the catch block too) may throw, which
    is decided by a fault schedule carried in the world.  The handler is
    written in a state-and-exception monad over that world, with the
    try/catch and try/finally of the source as combinators. *)

From Stdlib Require Import ZArith String Ascii List Lia.
From stdpp Require Import base option gmap strings list.
Import ListNotations.
Local Open Scope string_scope.
Local Open Scope list_scope.
Local Open Scope Z_scope.

(** ** Rows and tables *)

(** A row of [users]: [id TEXT PRIMARY KEY, token TEXT, email TEXT,
    created_at TIMESTAMP WITH TIME ZONE DEFAULT now()].  Nullable columns
    are options; timestamps are instants on the store's clock. *)
Record User := mkUser {
  id : string;
  token : option string;
  email : option string;
  created_at : option Z
}.

(** A row of [profiles]; [metadata] is the JSONB document, kept as its
    text. *)
Record Profile := mkProfile {
  user_id : string;
  profile_type : option string;
  display_name : option string;
  bio : option string;
  metadata : option string;
  updated_at : option Z
}.

(** A table that was never created is [None]. *)
Record Database := mkDatabase {
  users : option (list User);
  profiles : option (list Profile)
}.

Definition user_rows (d : Database) : list User := default [] (users d).
Definition profile_rows (d : Database) : list Profile := default [] (profiles d).

(** ** Exceptions *)

(** What JavaScript throws here is an Error object: a name and a
    message. *)
Record Exn := mkExn {
  exn_name : string;
  exn_message : string
}.

Definition is_empty (s : string) : bool :=
  match s with EmptyString => true | String _ _ => false end.

(** [String(err)] for an Error object (Error.prototype.toString). *)
Definition exn_to_string (e : Exn) : string :=
  if is_empty (exn_name e) then exn_message e
  else if is_empty (exn_message e) then exn_name e
  else (exn_name e ++ ": " ++ exn_message e)%string.

(** [String(err?.message || err)] *)
Definition error_details (e : Exn) : string :=
  if is_empty (exn_message e) then exn_to_string e else exn_message e.

(** Errors the store itself reports (pg's DatabaseError has name
    "error"). *)
Definition pg_error (msg : string) : Exn := mkExn "error" msg.

(** ** Statements and their meaning on the store *)

Inductive Table := users_table | profiles_table.

Definition table_name (t : Table) : string :=
  match t with users_table => "users" | profiles_table => "profiles" end.

Inductive Stmt :=
| CreateTable (if_not_exists : bool) (t : Table)
| SelectUserById (userId : string)
| SelectUserByToken (tok : string)
| SelectProfileByUserId (userId : string)
| InsertUser (userId : string) (on_conflict_do_nothing : bool).

(** [rows] of a query result. *)
Inductive Rows :=
| UserRows (l : list User)
| ProfileRows (l : list Profile)
| NoRows.

(** The store names relations and constraints between double quotes
    (character 34). *)
Definition dquote : ascii := Ascii false true false false false true false false.
Definition quoted (s : string) : string :=
  String dquote (s ++ String dquote EmptyString)%string.

Definition undefined_table (t : Table) : Exn :=
  pg_error ("relation " ++ quoted (table_name t) ++ " does not exist")%string.
Definition duplicate_table (t : Table) : Exn :=
  pg_error ("relation " ++ quoted (table_name t) ++ " already exists")%string.
Definition unique_violation : Exn :=
  pg_error ("duplicate key value violates unique constraint " ++ quoted "users_pkey")%string.

Definition has_id (userId : string) (u : User) : bool :=
  bool_decide (id u = userId).
Definition has_token (tok : string) (u : User) : bool :=
  bool_decide (token u = Some tok).
Definition has_user_id (userId : string) (p : Profile) : bool :=
  bool_decide (user_id p = userId).

(** The row [INSERT INTO users(id, created_at) VALUES($1, now())] adds. *)
Definition new_user (userId : string) (t : Z) : User :=
  mkUser userId None None (Some t).

(** One statement at store time [t]: an error, or the rows it returns
    and the store after it. *)
Definition exec (q : Stmt) (t : Z) (d : Database) : Exn + (Rows * Database) :=
  match q with
  | CreateTable ine users_table =>
      match users d with
      | Some _ => if ine then inr (NoRows, d) else inl (duplicate_table users_table)
      | None => inr (NoRows, mkDatabase (Some []) (profiles d))
      end
  | CreateTable ine profiles_table =>
      match profiles d with
      | Some _ => if ine then inr (NoRows, d) else inl (duplicate_table profiles_table)
      | None =>
          (* user_id ... REFERENCES users(id) *)
          match users d with
          | Some _ => inr (NoRows, mkDatabase (users d) (Some []))
          | None => inl (undefined_table users_table)
          end
      end
  | SelectUserById userId =>
      match users d with
      | Some l => inr (UserRows (List.firstn 1 (List.filter (has_id userId) l)), d)
      | None => inl (undefined_table users_table)
      end
  | SelectUserByToken tok =>
      match users d with
      | Some l => inr (UserRows (List.firstn 1 (List.filter (has_token tok) l)), d)
      | None => inl (undefined_table users_table)
      end
  | SelectProfileByUserId userId =>
      match profiles d with
      | Some l => inr (ProfileRows (List.firstn 1 (List.filter (has_user_id userId) l)), d)
      | None => inl (undefined_table profiles_table)
      end
  | InsertUser userId ocdn =>
      match users d with
      | Some l =>
          if existsb (has_id userId) l
          then if ocdn then inr (NoRows, d) else inl unique_violation
          else inr (NoRows, mkDatabase (Some (l ++ [new_user userId t])) (profiles d))
      | None => inl (undefined_table users_table)
      end
  end.

(** ** The world outside the handler *)

Definition Client := nat.

Inductive Body :=
| BodyError (error : string)
| BodyServerError (error details : string)
| BodyProfile (user : User) (profile : option Profile) (profile_type' : option string).

Record Response := mkResponse {
  status : Z;
  body : Body
}.

Inductive Event :=
| EvConnect (c : Client)              (* pool.connect() handed out client c *)
| EvClientQuery (c : Client) (q : Stmt)
| EvRelease (c : Client)
| EvPoolQuery (q : Stmt)
| EvLog (e : Exn)                     (* console.error *)
| EvRespond (r : Response).

(** [faults n] is what the [n]-th external call throws, if anything;
    [now n] is the store's clock when it serves that call. *)
Record World := mkWorld {
  db : Database;
  leased : nat;
  clock : nat;
  trace : list Event;
  faults : nat -> option Exn;
  now : nat -> Z
}.

Definition fault_free (w : World) : Prop := forall n, faults w n = None.

(** ** State and exceptions *)

Definition M (A : Type) : Type := World -> (Exn + A) * World.

Definition ret {A} (a : A) : M A := fun w => (inr a, w).

Definition bind {A B} (m : M A) (k : A -> M B) : M B := fun w =>
  match m w with
  | (inl e, w1) => (inl e, w1)
  | (inr a, w1) => k a w1
  end.

Definition throw {A} (e : Exn) : M A := fun w => (inl e, w).

(** [try { m } catch (err) { h err }] *)
Definition try_catch {A} (m : M A) (h : Exn -> M A) : M A := fun w =>
  match m w with
  | (inl e, w1) => h e w1
  | (inr a, w1) => (inr a, w1)
  end.

(** [try { m } finally { fin }]: [fin] runs on both exits, and an
    exception of its own replaces the outcome of [m]. *)
Definition try_finally {A} (m : M A) (fin : M unit) : M A := fun w =>
  match m w with
  | (r, w1) =>
      match fin w1 with
      | (inl e, w2) => (inl e, w2)
      | (inr _, w2) => (r, w2)
      end
  end.

Declare Scope js_scope.
Delimit Scope js_scope with js.
Notation "'let!' x ':=' m 'in' k" := (bind m (fun x => k))
  (at level 10, x name, m at level 100, k at level 200) : js_scope.
Notation "'do!' m 'in' k" := (bind m (fun _ => k))
  (at level 10, m at level 100, k at level 200) : js_scope.
Local Open Scope js_scope.

Definition emit (ev : Event) : M unit := fun w =>
  (inr tt, mkWorld (db w) (leased w) (clock w) (trace w ++ [ev]) (faults w) (now w)).

(** Every call that leaves the process takes the next slot of the fault
    schedule, and throws what the schedule holds there. *)
Definition external : M nat := fun w =>
  let w1 := mkWorld (db w) (leased w) (S (clock w)) (trace w) (faults w) (now w) in
  match faults w (clock w) with
  | Some e => (inl e, w1)
  | None => (inr (clock w), w1)
  end.

(** The store runs [q] at the time of slot [n]. *)
Definition run_stmt (q : Stmt) (n : nat) : M Rows := fun w =>
  match exec q (now w n) (db w) with
  | inl e => (inl e, w)
  | inr (rows, d) =>
      (inr rows, mkWorld d (leased w) (clock w) (trace w) (faults w) (now w))
  end.

(** *** The connection pool *)

Definition pool_connect : M Client :=
  let! c := external in
  fun w => (inr c, mkWorld (db w) (S (leased w)) (clock w)
                           (trace w ++ [EvConnect c]) (faults w) (now w)).

Definition client_query (c : Client) (q : Stmt) : M Rows :=
  do! emit (EvClientQuery c q) in
  let! n := external in
  run_stmt q n.

Definition client_release (c : Client) : M unit := fun w =>
  (inr tt, mkWorld (db w) (Nat.pred (leased w)) (clock w)
                   (trace w ++ [EvRelease c]) (faults w) (now w)).

Definition pool_query (q : Stmt) : M Rows :=
  do! emit (EvPoolQuery q) in
  let! n := external in
  run_stmt q n.

(** *** The response object *)

(** [res.status(s).json(b)]: a call like the others, which may throw
    whatever the body is; the reply is on record once it went through. *)
Definition res_json (s : Z) (b : Body) : M Response :=
  do! external in
  do! emit (EvRespond (mkResponse s b)) in
  ret (mkResponse s b).

Definition console_error (e : Exn) : M unit := emit (EvLog e).

(** ** The source, function by function *)

Definition CREATE_USERS : Stmt := CreateTable true users_table.
Definition CREATE_PROFILES : Stmt := CreateTable true profiles_table.

Definition ensureSchema : M unit :=
  let! client := pool_connect in
  try_finally
    (do! client_query client CREATE_USERS in
     do! client_query client CREATE_PROFILES in
     ret tt)
    (client_release client).

(** [rows[0] || null] *)
Definition first_user (r : Rows) : option User :=
  match r with UserRows (u :: _) => Some u | _ => None end.
Definition first_profile (r : Rows) : option Profile :=
  match r with ProfileRows (p :: _) => Some p | _ => None end.

Definition getUserById (userId : string) : M (option User) :=
  let! rows := pool_query (SelectUserById userId) in
  ret (first_user rows).

Definition getUserByToken (tok : string) : M (option User) :=
  let! rows := pool_query (SelectUserByToken tok) in
  ret (first_user rows).

Definition getProfileForUser (userId : string) : M (option Profile) :=
  let! rows := pool_query (SelectProfileByUserId userId) in
  ret (first_profile rows).

(** *** Header values: a string, or undefined *)

Record Request := mkRequest {
  headers : gmap string string
}.

(** Truthiness of a value that is a string, null or undefined: [Some s]
    exactly when it is the non-empty string [s]. *)
Definition truthy (v : option string) : option string :=
  match v with
  | Some (String a s) => Some (String a s)
  | _ => None
  end.

(** [v || null] and [v || ''] *)
Definition or_null (v : option string) : option string :=
  match truthy v with Some s => Some s | None => None end.
Definition or_empty (v : option string) : string :=
  match truthy v with Some s => s | None => EmptyString end.

(** [s.slice(n)] *)
Fixpoint slice (n : nat) (s : string) : string :=
  match n, s with
  | O, _ => s
  | S n', String _ s' => slice n' s'
  | S _, EmptyString => EmptyString
  end.

(** [authHeader.startsWith("Bearer ") ? authHeader.slice(7) : null] *)
Definition bearer_of (authHeader : string) : option string :=
  if String.prefix "Bearer " authHeader then Some (slice 7 authHeader) else None.

Definition MISSING_AUTH : Body :=
  BodyError "Missing auth. Provide x-user-id (dev) or Authorization: Bearer <token>.".
Definition INVALID_AUTH : Body :=
  BodyError "Invalid auth / user not found.".
Definition SERVER_ERROR (err : Exn) : Body :=
  BodyServerError "Server error" (error_details err).

(** The body of the [try]: an early [return] of the if/else chain is
    [inl], falling through with [user] is [inr]. *)
Definition handler_try (req : Request) : M Response :=
  do! ensureSchema in
  let devUserId := or_null (headers req !! "x-user-id") in
  let authHeader := or_empty (headers req !! "authorization") in
  let bearer := bearer_of authHeader in
  let! r :=
    match truthy devUserId with
    | Some devUserId =>
        let! user := getUserById devUserId in
        match user with
        | Some _ => ret (inr user)
        | None =>
            do! pool_query (InsertUser devUserId true) in
            let! user := getUserById devUserId in
            ret (inr user)
        end
    | None =>
        match truthy bearer with
        | Some bearer =>
            let! user := getUserByToken bearer in
            ret (inr user)
        | None =>
            let! sent := res_json 401 MISSING_AUTH in
            ret (inl sent)
        end
    end in
  match r with
  | inl sent => ret sent
  | inr None => res_json 401 INVALID_AUTH
  | inr (Some user) =>
      let! profile := getProfileForUser (id user) in
      res_json 200 (BodyProfile user profile (profile ≫= profile_type))
  end.

Definition handler (req : Request) : M Response :=
  try_catch (handler_try req)
    (fun err =>
       do! console_error err in
       res_json 500 (SERVER_ERROR err)).

(** ** Vocabulary of the statements below *)

(** The store once both tables are there: rows as they were. *)
Definition bootstrapped (d : Database) : Database :=
  mkDatabase (Some (user_rows d)) (Some (profile_rows d)).

(** What a run of [ensureSchema] that meets no fault leaves in the trace,
    on client [c]. *)
Definition schema_events (c : Client) : list Event :=
  [EvConnect c; EvClientQuery c CREATE_USERS;
   EvClientQuery c CREATE_PROFILES; EvRelease c].

(** The world [k] external calls after [w], with store [d] and the events
    [evs] appended. *)
Definition world_after (w : World) (d : Database) (k : nat) (evs : list Event) : World :=
  mkWorld d (leased w) (k + clock w) (trace w ++ evs) (faults w) (now w).

(** The events a run of [m] from [w] appends to the trace. *)
Definition issued {A} (m : M A) (w : World) : list Event :=
  drop (length (trace w)) (trace (snd (m w))).

(** [m] only ever appends events that satisfy [P], whatever the faults. *)
Definition emits (P : Event -> Prop) {A} (m : M A) : Prop :=
  forall w, exists evs, trace (snd (m w)) = trace w ++ evs /\ Forall P evs.

Definition not_token_lookup (ev : Event) : Prop :=
  match ev with
  | EvPoolQuery (SelectUserByToken _) | EvClientQuery _ (SelectUserByToken _) => False
  | _ => True
  end.

Definition not_insert (ev : Event) : Prop :=
  match ev with
  | EvPoolQuery (InsertUser _ _) | EvClientQuery _ (InsertUser _ _) => False
  | _ => True
  end.

(** [m] invoked [n] times in succession. *)
Fixpoint times (n : nat) (m : M unit) : M unit :=
  match n with
  | O => ret tt
  | S n' => do! m in times n' m
  end.

(** The request that differs from [req] in its authorization header
    only: set to [a], or removed. *)
Definition with_authorization (a : option string) (req : Request) : Request :=
  match a with
  | Some v => mkRequest (<["authorization" := v]> (headers req))
  | None => mkRequest (delete "authorization" (headers req))
  end.

(** *** Sample stores, worlds and requests *)

Definition no_faults : nat -> option Exn := fun _ => None.
Definition fault_at (k : nat) (e : Exn) : nat -> option Exn :=
  fun n => if Nat.eqb n k then Some e else None.
Definition wall_clock : nat -> Z := fun n => 1000 + Z.of_nat n.

Definition fresh_store : Database := mkDatabase None None.

Definition alice : User := mkUser "alice" (Some "s3cret") (Some "alice@example.org") (Some 17).
Definition bob : User := mkUser "bob" None None (Some 42).
Definition alice_profile : Profile :=
  mkProfile "alice" (Some "musician") (Some "Alice") None None (Some 18).

Definition small_store : Database :=
  mkDatabase (Some [alice; bob]) (Some [alice_profile]).

Definition fresh_world : World := mkWorld fresh_store 0 0 [] no_faults wall_clock.
Definition small_world : World := mkWorld small_store 0 0 [] no_faults wall_clock.
Definition faulty_world (k : nat) (e : Exn) : World :=
  mkWorld small_store 0 0 [] (fault_at k e) wall_clock.

Definition boom : Exn := mkExn "Error" "connection terminated unexpectedly".

Definition no_headers : Request := mkRequest ∅.
Definition dev_request (u : string) : Request := mkRequest {["x-user-id" := u]}.
Definition auth_request (a : string) : Request := mkRequest {["authorization" := a]}.
Definition both_request (u a : string) : Request :=
  mkRequest (<["x-user-id" := u]> {["authorization" := a]}).

(** The 200 reply for user [u] over the profiles of [d]. *)
Definition ok_profile (u : User) (d : Database) : Response :=
  let p := List.find (has_user_id (id u)) (profile_rows d) in
  mkResponse 200 (BodyProfile u p (p ≫= profile_type)).

(** The user a request resolves to in world [w]: the row the dev header
    names, the row provisioned for it, or the row holding the bearer
    token. *)
Inductive resolves (req : Request) (w : World) : User -> Prop :=
| resolves_dev_known (U : string) (u : User) :
    truthy (headers req !! "x-user-id") = Some U ->
    List.find (has_id U) (user_rows (db w)) = Some u ->
    resolves req w u
| resolves_dev_new (U : string) :
    truthy (headers req !! "x-user-id") = Some U ->
    List.find (has_id U) (user_rows (db w)) = None ->
    resolves req w (new_user U (now w (4 + clock w)%nat))
| resolves_bearer (T : string) (u : User) :
    truthy (headers req !! "x-user-id") = None ->
    truthy (bearer_of (or_empty (headers req !! "authorization"))) = Some T ->
    List.find (has_token T) (user_rows (db w)) = Some u ->
    resolves req w u.

(** ** Module initialisation (the top of the file)

    What runs when the module is loaded: the connection string is read
    from the environment, its absence is logged, and the pool kept in
    [global.__pgPool] is reused when there is one. *)

(** A [Pool] object: which one it is, and what it was constructed with. *)
Record Pool := mkPool {
  pool_id : nat;
  connectionString : option string
}.

Record Process := mkProcess {
  env : gmap string string;        (* process.env *)
  pgPool : option Pool;            (* global.__pgPool *)
  pools_made : nat;                (* Pool objects constructed so far *)
  stderr : list string             (* lines written by console.error *)
}.

(** [a || b] on values that are strings or undefined. *)
Definition js_or (a b : option string) : option string :=
  match truthy a with
  | Some s => Some s
  | None => b
  end.

Definition DATABASE_URL (p : Process) : option string :=
  js_or (env p !! "POSTGRES_URL") (env p !! "DATABASE_URL").

Definition MISSING_URL : string := "Missing POSTGRES_URL environment variable.".

(** Lines 4 to 16; the result is [pool]. *)
Definition load_module (p : Process) : Pool * Process :=
  let url := DATABASE_URL p in
  let err :=
    match truthy url with
    | Some _ => stderr p
    | None => stderr p ++ [MISSING_URL]
    end in
  match pgPool p with
  | Some q => (q, mkProcess (env p) (Some q) (pools_made p) err)
  | None =>
      let q := mkPool (pools_made p) url in
      (q, mkProcess (env p) (Some q) (S (pools_made p)) err)
  end.

(** The same process with another environment. *)
Definition with_env (e : gmap string string) (p : Process) : Process :=
  mkProcess e (pgPool p) (pools_made p) (stderr p).

(** ** Frames: what a run leaves as it was *)

(** Every run of [m] takes a world to one related to it by [R]. *)
Definition keeps (R : World -> World -> Prop) {A} (m : M A) : Prop :=
  forall w, R w (snd (m w)).

Definition same_leased (w w' : World) : Prop := leased w' = leased w.

Definition rows_kept (w w' : World) : Prop :=
  user_rows (db w') = user_rows (db w) /\
  profile_rows (db w') = profile_rows (db w).

(** At most one row was added to [users], for the id [U], and only where
    no row had that id; [profiles] is as it was. *)
Definition provisions (U : string) (w w' : World) : Prop :=
  profile_rows (db w') = profile_rows (db w) /\
  (user_rows (db w') = user_rows (db w) \/
   (List.find (has_id U) (user_rows (db w)) = None /\
    exists t, user_rows (db w') = user_rows (db w) ++ [new_user U t])).

Definition any_stmt (q : Stmt) : Prop := True.

Definition no_insert_stmt (q : Stmt) : Prop :=
  match q with InsertUser _ _ => False | _ => True end.

Definition insert_only_for (U : string) (q : Stmt) : Prop :=
  match q with InsertUser U' _ => U' = U | _ => True end.

Definition not_respond (ev : Event) : Prop :=
  match ev with EvRespond _ => False | _ => True end.

(** The request without its [x-user-id] header. *)
Definition without_dev_id (req : Request) : Request :=
  mkRequest (delete "x-user-id" (headers req)).

Definition bare_process (e : gmap string string) : Process := mkProcess e None 0 [].

(** ** Counting the calls of a request *)

(** The same world with no fault to come. *)
Definition calm (w : World) : World :=
  mkWorld (db w) (leased w) (clock w) (trace w) no_faults (now w).

(** The external calls the handler makes for [req] from [w] when none of
    them fails. *)
Definition calls (req : Request) (w : World) : nat :=
  (clock (snd (handler req (calm w))) - clock w)%nat.

(** Every call from the [k]-th on throws [e]. *)
Definition faults_from (k : nat) (e : Exn) : nat -> option Exn :=
  fun n => if Nat.leb k n then Some e else None.

Definition failing_world (k : nat) (e : Exn) : World :=
  mkWorld small_store 0 0 [] (faults_from k e) wall_clock.

(** * Properties *)

(** ** Rows *)

Lemma first_user_select (f : User -> bool) (l : list User) :
  first_user (UserRows (List.firstn 1 (List.filter f l))) = List.find f l.
Proof.
  induction l as [|u l IH]; [reflexivity|].
  cbn. destruct (f u); [reflexivity|]. exact IH.
Qed.

Lemma first_profile_select (f : Profile -> bool) (l : list Profile) :
  first_profile (ProfileRows (List.firstn 1 (List.filter f l))) = List.find f l.
Proof.
  induction l as [|p l IH]; [reflexivity|].
  cbn. destruct (f p); [reflexivity|]. exact IH.
Qed.

Lemma find_absent {A} (f : A -> bool) (l : list A) :
  (forall x, In x l -> f x = false) -> List.find f l = None.
Proof.
  induction l as [|a l IH]; intros H; [reflexivity|].
  cbn. rewrite (H a (or_introl eq_refl)). apply IH.
  intros x Hx. apply H. right. exact Hx.
Qed.

Lemma find_present {A} (f : A -> bool) (l : list A) (x : A) :
  In x l -> f x = true -> exists y, List.find f l = Some y.
Proof.
  induction l as [|a l IH]; intros Hin Hf; [destruct Hin|].
  cbn. destruct (f a) eqn:E; [eauto|].
  destruct Hin as [->|Hin]; [congruence|]. apply IH; assumption.
Qed.

Lemma find_absent_existsb {A} (f : A -> bool) (l : list A) :
  List.find f l = None -> existsb f l = false.
Proof.
  induction l as [|a l IH]; [reflexivity|].
  cbn. destruct (f a); [discriminate|]. exact IH.
Qed.

Lemma find_appended {A} (f : A -> bool) (l : list A) (x : A) :
  List.find f l = None -> f x = true -> List.find f (l ++ [x]) = Some x.
Proof.
  induction l as [|a l IH]; cbn; intros Hl Hx.
  - rewrite Hx. reflexivity.
  - destruct (f a); [discriminate|]. apply IH; assumption.
Qed.

Lemma has_id_true (u : User) (U : string) : has_id U u = true <-> id u = U.
Proof. unfold has_id. apply bool_decide_eq_true. Qed.

Lemma has_id_false (u : User) (U : string) : has_id U u = false <-> id u <> U.
Proof. unfold has_id. apply bool_decide_eq_false. Qed.

Lemma has_token_false (u : User) (T : string) :
  has_token T u = false <-> token u <> Some T.
Proof. unfold has_token. apply bool_decide_eq_false. Qed.

(** Under the primary key, the row a lookup by id selects is the only
    row with that id. *)
Lemma primary_key_find (l : list User) (u : User) :
  NoDup (map id l) -> In u l -> List.find (has_id (id u)) l = Some u.
Proof.
  induction l as [|a l IH]; intros Hnd Hin; [destruct Hin|].
  cbn in Hnd. apply NoDup_cons in Hnd as [Ha Hnd]. cbn.
  destruct Hin as [->|Hin].
  - rewrite (proj2 (has_id_true u (id u)) eq_refl). reflexivity.
  - destruct (has_id (id u) a) eqn:E.
    + apply has_id_true in E. exfalso. apply Ha. rewrite E.
      apply list_elem_of_In, in_map, Hin.
    + apply IH; assumption.
Qed.

(** ** Header values *)

Lemma truthy_nonempty (s : string) : s <> EmptyString -> truthy (Some s) = Some s.
Proof. destruct s; [congruence | reflexivity]. Qed.

Lemma truthy_or_null (v : option string) : truthy (or_null v) = truthy v.
Proof. destruct v as [[|a s]|]; reflexivity. Qed.

Lemma or_empty_some (s : string) : or_empty (Some s) = s.
Proof. destruct s; reflexivity. Qed.

Lemma bearer_of_prefixed (T : string) : bearer_of ("Bearer " ++ T)%string = Some T.
Proof.
  unfold bearer_of. cbn. destruct T; reflexivity.
Qed.

(** ** One step of the monad, on a world given by its fields *)

Lemma bind_eq {A B} (m : M A) (k : A -> M B) (w : World) :
  bind m k w =
  match m w with
  | (inl e, w1) => (inl e, w1)
  | (inr a, w1) => k a w1
  end.
Proof. reflexivity. Qed.

Lemma ret_eq {A} (a : A) (w : World) : ret a w = (inr a, w).
Proof. reflexivity. Qed.

Lemma emit_mk ev d l c tr f nw :
  emit ev (mkWorld d l c tr f nw) = (inr tt, mkWorld d l c (tr ++ [ev]) f nw).
Proof. reflexivity. Qed.

Lemma pool_query_mk q d l c tr f nw :
  pool_query q (mkWorld d l c tr f nw) =
  match f c with
  | Some e => (inl e, mkWorld d l (S c) (tr ++ [EvPoolQuery q]) f nw)
  | None =>
      match exec q (nw c) d with
      | inl e => (inl e, mkWorld d l (S c) (tr ++ [EvPoolQuery q]) f nw)
      | inr (rows, d') => (inr rows, mkWorld d' l (S c) (tr ++ [EvPoolQuery q]) f nw)
      end
  end.
Proof.
  cbv [pool_query bind emit external run_stmt db leased clock trace faults now].
  destruct (f c); [reflexivity|].
  destruct (exec q (nw c) d) as [e|[rows d']]; reflexivity.
Qed.

Lemma res_json_mk s b d l c tr f nw :
  res_json s b (mkWorld d l c tr f nw) =
  match f c with
  | Some e => (inl e, mkWorld d l (S c) tr f nw)
  | None => (inr (mkResponse s b),
             mkWorld d l (S c) (tr ++ [EvRespond (mkResponse s b)]) f nw)
  end.
Proof.
  cbv [res_json bind emit external ret db leased clock trace faults now].
  destruct (f c); reflexivity.
Qed.

Create Rewrite HintDb run.
#[local] Hint Rewrite @bind_eq @ret_eq emit_mk pool_query_mk res_json_mk
  first_user_select first_profile_select : run.

(** Runs the monad forward on a world given by its fields, using [H] to
    clear the fault slots. *)
Ltac run H :=
  repeat (progress (autorewrite with run; rewrite ?H;
                    cbn [exec users profiles]; cbv beta iota)).

Ltac fields w H :=
  let us := fresh "us" in let ps := fresh "ps" in
  destruct w as [[us ps] ? ? ? ? ?];
  unfold fault_free in H;
  cbn [db leased clock trace faults now users profiles user_rows profile_rows] in *.

(** ** The bootstrap *)

(** Without faults the bootstrap returns normally, with both tables in
    place and every row as it was. *)
Lemma ensureSchema_ok (w : World) :
  fault_free w ->
  ensureSchema w = (inr tt, world_after w (bootstrapped (db w)) 3 (schema_events (clock w))).
Proof.
  intros H. fields w H.
  cbv [ensureSchema pool_connect client_query client_release try_finally
       external emit run_stmt bind ret db leased clock trace faults now].
  rewrite !H.
  destruct us, ps; cbv [exec CREATE_USERS CREATE_PROFILES users profiles]; rewrite ?H;
    cbv [world_after bootstrapped schema_events db leased clock trace faults now
         user_rows profile_rows users profiles default];
    rewrite <- !app_assoc; reflexivity.
Qed.

Lemma bind_ok {A B} (m : M A) (k : A -> M B) w a w1 :
  m w = (inr a, w1) -> bind m k w = k a w1.
Proof. intros E. unfold bind. rewrite E. reflexivity. Qed.

Lemma issued_of {A} (m : M A) (w : World) (evs : list Event) :
  trace (snd (m w)) = trace w ++ evs -> issued m w = evs.
Proof. intros E. unfold issued. rewrite E. apply drop_app_length. Qed.

(** ** The handler on a store that answers every call

    One lemma per path through the if/else chain; each gives the reply
    and the world the handler leaves. *)

Ltac enter_handler H :=
  unfold handler, try_catch, handler_try;
  rewrite (bind_ok _ _ _ _ _ (ensureSchema_ok _ H)).

Ltac finish_run w H :=
  fields w H;
  unfold getUserById, getUserByToken, getProfileForUser, console_error,
         world_after, bootstrapped;
  cbn [db leased clock trace faults now users profiles user_rows profile_rows].

Ltac same_world :=
  cbn [id]; rewrite <- ?app_assoc; reflexivity.

Lemma handler_dev_hit (req : Request) (w : World) (U : string) (u : User) :
  fault_free w ->
  truthy (or_null (headers req !! "x-user-id")) = Some U ->
  List.find (has_id U) (user_rows (db w)) = Some u ->
  handler req w =
  (inr (ok_profile u (db w)),
   world_after w (bootstrapped (db w)) 6
     (schema_events (clock w) ++
      [EvPoolQuery (SelectUserById U); EvPoolQuery (SelectProfileByUserId (id u));
       EvRespond (ok_profile u (db w))])).
Proof.
  intros H HU Hf. enter_handler H. rewrite HU. finish_run w H.
  run H. rewrite Hf. run H. unfold ok_profile. same_world.
Qed.

Lemma handler_dev_miss (req : Request) (w : World) (U : string) :
  fault_free w ->
  truthy (or_null (headers req !! "x-user-id")) = Some U ->
  List.find (has_id U) (user_rows (db w)) = None ->
  let u := new_user U (now w (4 + clock w)%nat) in
  handler req w =
  (inr (ok_profile u (db w)),
   world_after w (mkDatabase (Some (user_rows (db w) ++ [u])) (Some (profile_rows (db w)))) 8
     (schema_events (clock w) ++
      [EvPoolQuery (SelectUserById U); EvPoolQuery (InsertUser U true);
       EvPoolQuery (SelectUserById U); EvPoolQuery (SelectProfileByUserId U);
       EvRespond (ok_profile u (db w))])).
Proof.
  intros H HU Hf u. enter_handler H. rewrite HU. finish_run w H.
  run H. rewrite Hf. run H.
  rewrite (find_absent_existsb _ _ Hf). run H.
  rewrite (find_appended (has_id U) _ _ Hf) by (apply has_id_true; reflexivity).
  run H. unfold ok_profile. same_world.
Qed.

Lemma handler_bearer_hit (req : Request) (w : World) (T : string) (u : User) :
  fault_free w ->
  truthy (or_null (headers req !! "x-user-id")) = None ->
  truthy (bearer_of (or_empty (headers req !! "authorization"))) = Some T ->
  List.find (has_token T) (user_rows (db w)) = Some u ->
  handler req w =
  (inr (ok_profile u (db w)),
   world_after w (bootstrapped (db w)) 6
     (schema_events (clock w) ++
      [EvPoolQuery (SelectUserByToken T); EvPoolQuery (SelectProfileByUserId (id u));
       EvRespond (ok_profile u (db w))])).
Proof.
  intros H HU HT Hf. enter_handler H. rewrite HU, HT. finish_run w H.
  run H. rewrite Hf. run H. unfold ok_profile. same_world.
Qed.

Lemma handler_bearer_miss (req : Request) (w : World) (T : string) :
  fault_free w ->
  truthy (or_null (headers req !! "x-user-id")) = None ->
  truthy (bearer_of (or_empty (headers req !! "authorization"))) = Some T ->
  List.find (has_token T) (user_rows (db w)) = None ->
  handler req w =
  (inr (mkResponse 401 INVALID_AUTH),
   world_after w (bootstrapped (db w)) 5
     (schema_events (clock w) ++
      [EvPoolQuery (SelectUserByToken T); EvRespond (mkResponse 401 INVALID_AUTH)])).
Proof.
  intros H HU HT Hf. enter_handler H. rewrite HU, HT. finish_run w H.
  run H. rewrite Hf. run H. same_world.
Qed.

Lemma handler_missing (req : Request) (w : World) :
  fault_free w ->
  truthy (or_null (headers req !! "x-user-id")) = None ->
  truthy (bearer_of (or_empty (headers req !! "authorization"))) = None ->
  handler req w =
  (inr (mkResponse 401 MISSING_AUTH),
   world_after w (bootstrapped (db w)) 4
     (schema_events (clock w) ++ [EvRespond (mkResponse 401 MISSING_AUTH)])).
Proof.
  intros H HU HT. enter_handler H. rewrite HU, HT. finish_run w H.
  run H. same_world.
Qed.

(** The bootstrap under any fault schedule: which slot fails decides
    where it stops, and the client is released on each exit once it was
    handed out. *)
Lemma ensureSchema_run d l c tr f nw :
  ensureSchema (mkWorld d l c tr f nw) =
  match f c with
  | Some e => (inl e, mkWorld d l (S c) tr f nw)
  | None =>
      match f (S c) with
      | Some e =>
          (inl e, mkWorld d l (2 + c)
                    (tr ++ [EvConnect c; EvClientQuery c CREATE_USERS; EvRelease c]) f nw)
      | None =>
          match f (S (S c)) with
          | Some e =>
              (inl e, mkWorld (mkDatabase (Some (user_rows d)) (profiles d)) l (3 + c)
                        (tr ++ schema_events c) f nw)
          | None => (inr tt, mkWorld (bootstrapped d) l (3 + c) (tr ++ schema_events c) f nw)
          end
      end
  end.
Proof.
  cbv [ensureSchema pool_connect client_query client_release try_finally
       external emit run_stmt bind ret db leased clock trace faults now].
  destruct (f c); [reflexivity|].
  destruct (f (S c)); [rewrite <- !app_assoc; reflexivity|].
  destruct d as [[us|] [ps|]];
    cbv [exec CREATE_USERS CREATE_PROFILES users profiles];
    destruct (f (S (S c)));
    cbv [bootstrapped schema_events user_rows profile_rows users profiles default];
    rewrite <- !app_assoc; reflexivity.
Qed.

(** ** What a run may append to the trace *)

Section Emits.
Variable P : Event -> Prop.

Lemma emits_ret {A} (a : A) : emits P (ret a).
Proof. intros w. exists []. cbn. rewrite app_nil_r. auto. Qed.

Lemma emits_throw {A} (e : Exn) : emits P (@throw A e).
Proof. intros w. exists []. cbn. rewrite app_nil_r. auto. Qed.

Lemma emits_emit (ev : Event) : P ev -> emits P (emit ev).
Proof. intros H w. exists [ev]. cbn. auto. Qed.

Lemma emits_external : emits P external.
Proof.
  intros w. exists []. unfold external.
  destruct (faults w (clock w)); cbn; rewrite app_nil_r; auto.
Qed.

Lemma emits_run_stmt (q : Stmt) (n : nat) : emits P (run_stmt q n).
Proof.
  intros w. exists []. unfold run_stmt.
  destruct (exec q (now w n) (db w)) as [e|[rows d]]; cbn; rewrite app_nil_r; auto.
Qed.

Lemma emits_bind {A B} (m : M A) (k : A -> M B) :
  emits P m -> (forall a, emits P (k a)) -> emits P (bind m k).
Proof.
  intros Hm Hk w. unfold bind.
  destruct (Hm w) as (evs & E & HP). destruct (m w) as [[e|a] w1]; cbn in E.
  - exists evs. auto.
  - destruct (Hk a w1) as (evs' & E' & HP').
    exists (evs ++ evs'). rewrite E', E, app_assoc. split; [reflexivity|].
    apply Forall_app; auto.
Qed.

Lemma emits_try_catch {A} (m : M A) (h : Exn -> M A) :
  emits P m -> (forall e, emits P (h e)) -> emits P (try_catch m h).
Proof.
  intros Hm Hh w. unfold try_catch.
  destruct (Hm w) as (evs & E & HP). destruct (m w) as [[e|a] w1]; cbn in E.
  - destruct (Hh e w1) as (evs' & E' & HP').
    exists (evs ++ evs'). rewrite E', E, app_assoc. split; [reflexivity|].
    apply Forall_app; auto.
  - exists evs. auto.
Qed.

Lemma emits_try_finally {A} (m : M A) (fin : M unit) :
  emits P m -> emits P fin -> emits P (try_finally m fin).
Proof.
  intros Hm Hf w. unfold try_finally.
  destruct (Hm w) as (evs & E & HP). destruct (m w) as [r w1]; cbn in E.
  destruct (Hf w1) as (evs' & E' & HP').
  exists (evs ++ evs'). split; [|apply Forall_app; auto].
  destruct (fin w1) as [[e|?] w2]; cbn in E' |- *; rewrite E', E, app_assoc; reflexivity.
Qed.

Lemma emits_pool_connect : (forall c, P (EvConnect c)) -> emits P pool_connect.
Proof.
  intros H. apply emits_bind; [apply emits_external|].
  intros c w. exists [EvConnect c]. cbn. auto.
Qed.

Lemma emits_client_query (c : Client) (q : Stmt) :
  P (EvClientQuery c q) -> emits P (client_query c q).
Proof.
  intros H. apply emits_bind; [apply emits_emit, H|]. intros _.
  apply emits_bind; [apply emits_external|]. intros n. apply emits_run_stmt.
Qed.

Lemma emits_client_release (c : Client) :
  P (EvRelease c) -> emits P (client_release c).
Proof. intros H w. exists [EvRelease c]. cbn. auto. Qed.

Lemma emits_pool_query (q : Stmt) : P (EvPoolQuery q) -> emits P (pool_query q).
Proof.
  intros H. apply emits_bind; [apply emits_emit, H|]. intros _.
  apply emits_bind; [apply emits_external|]. intros n. apply emits_run_stmt.
Qed.

Lemma emits_res_json (s : Z) (b : Body) :
  P (EvRespond (mkResponse s b)) -> emits P (res_json s b).
Proof.
  intros H. apply emits_bind; [apply emits_external|].
  intros _. apply emits_bind; [apply emits_emit, H|]. intros _. apply emits_ret.
Qed.

Lemma emits_ensureSchema :
  (forall c, P (EvConnect c)) -> (forall c, P (EvRelease c)) ->
  (forall c, P (EvClientQuery c CREATE_USERS)) ->
  (forall c, P (EvClientQuery c CREATE_PROFILES)) ->
  emits P ensureSchema.
Proof.
  intros Hc Hr Hu Hp. apply emits_bind; [apply emits_pool_connect, Hc|].
  intros c. apply emits_try_finally; [|apply emits_client_release, Hr].
  apply emits_bind; [apply emits_client_query, Hu|]. intros _.
  apply emits_bind; [apply emits_client_query, Hp|]. intros _. apply emits_ret.
Qed.
End Emits.

Lemma emits_issued (P : Event -> Prop) {A} (m : M A) (w : World) :
  emits P m -> Forall P (issued m w).
Proof.
  intros H. destruct (H w) as (evs & E & HP).
  rewrite (issued_of m w evs E). exact HP.
Qed.

Lemma no_token_lookup_in (evs : list Event) (T : string) :
  Forall not_token_lookup evs -> ~ In (EvPoolQuery (SelectUserByToken T)) evs.
Proof.
  intros H Hin. rewrite List.Forall_forall in H. exact (H _ Hin).
Qed.

Lemma no_insert_in (evs : list Event) (U : string) (b : bool) :
  Forall not_insert evs -> ~ In (EvPoolQuery (InsertUser U b)) evs.
Proof.
  intros H Hin. rewrite List.Forall_forall in H. exact (H _ Hin).
Qed.

Create HintDb emits.
#[local] Hint Resolve emits_ret emits_emit emits_pool_query emits_res_json
  emits_ensureSchema : emits.
#[local] Hint Extern 1 (not_token_lookup _) => exact I : emits.
#[local] Hint Extern 1 (not_insert _) => exact I : emits.

(** Walks the binds and branches of a computation. *)
Ltac emits_auto :=
  repeat first
    [ solve [auto with emits]
    | apply emits_try_catch
    | apply emits_bind
    | progress unfold getUserById, getUserByToken, getProfileForUser, console_error
    | match goal with
      | |- forall _, _ => intro
      | |- emits _ (match ?x with _ => _ end) => destruct x
      end ].

(** On the dev-header path the handler never looks a token up. *)
Lemma handler_dev_emits (req : Request) (U : string) :
  truthy (or_null (headers req !! "x-user-id")) = Some U ->
  emits not_token_lookup (handler req).
Proof.
  intros HU. unfold handler, handler_try. rewrite HU. emits_auto.
Qed.

(** Without a dev header the handler never inserts. *)
Lemma handler_no_dev_emits (req : Request) :
  truthy (or_null (headers req !! "x-user-id")) = None ->
  emits not_insert (handler req).
Proof.
  intros HU. unfold handler, handler_try. rewrite HU. emits_auto.
Qed.

(** With neither credential it never looks a token up either. *)
Lemma handler_missing_emits (req : Request) :
  truthy (or_null (headers req !! "x-user-id")) = None ->
  truthy (bearer_of (or_empty (headers req !! "authorization"))) = None ->
  emits not_token_lookup (handler req).
Proof.
  intros HU HT. unfold handler, handler_try. rewrite HU, HT. emits_auto.
Qed.

Lemma no_dev_header (req : Request) :
  headers req !! "x-user-id" = None ->
  truthy (or_null (headers req !! "x-user-id")) = None.
Proof. intros ->. reflexivity. Qed.

Lemma dev_header (req : Request) (U : string) :
  headers req !! "x-user-id" = Some U -> U <> EmptyString ->
  truthy (or_null (headers req !! "x-user-id")) = Some U.
Proof. intros -> HU. rewrite truthy_or_null. apply truthy_nonempty, HU. Qed.

Lemma bearer_header (req : Request) (T : string) :
  headers req !! "authorization" = Some ("Bearer " ++ T)%string ->
  truthy (bearer_of (or_empty (headers req !! "authorization"))) = truthy (Some T).
Proof. intros ->. rewrite or_empty_some, bearer_of_prefixed. reflexivity. Qed.

Lemma no_bearer_header (req : Request) :
  (forall A, headers req !! "authorization" = Some A -> String.prefix "Bearer " A = false) ->
  truthy (bearer_of (or_empty (headers req !! "authorization"))) = None.
Proof.
  intros H. destruct (headers req !! "authorization") as [A|] eqn:E; [|reflexivity].
  rewrite or_empty_some. unfold bearer_of. rewrite (H A eq_refl). reflexivity.
Qed.

Lemma bootstrapped_rows (d : Database) :
  user_rows (bootstrapped d) = user_rows d /\
  profile_rows (bootstrapped d) = profile_rows d.
Proof. split; reflexivity. Qed.

Lemma bootstrapped_existing (d : Database) :
  users d <> None -> profiles d <> None -> bootstrapped d = d.
Proof. destruct d as [[us|] [ps|]]; intros Hu Hp; try reflexivity; cbn in *; congruence. Qed.

Lemma bootstrapped_twice (d : Database) : bootstrapped (bootstrapped d) = bootstrapped d.
Proof. reflexivity. Qed.

(** ** The dev-header path *)

(** C1.  A request whose [x-user-id] is a non-empty [U] that no row of
    [users] carries makes the handler look [U] up, insert a row for it,
    look it up again and reply 200 with the new row; nothing about the
    caller is checked, so this holds for every [U] and whatever the other
    headers are.  The insert it issues leaves a store that already has
    [U] as it is, without an error. *)
Theorem dev_unknown_id_is_provisioned (req : Request) (w : World) (U : string) :
  fault_free w ->
  headers req !! "x-user-id" = Some U ->
  U <> EmptyString ->
  (forall u, In u (user_rows (db w)) -> id u <> U) ->
  let u := new_user U (now w (4 + clock w)%nat) in
  let p := List.find (has_user_id U) (profile_rows (db w)) in
  let reply :=
    mkResponse 200 (BodyProfile u p (match p with Some row => profile_type row | None => None end)) in
  exists w',
    handler req w = (inr reply, w') /\
    user_rows (db w') = user_rows (db w) ++ [u] /\
    issued (handler req) w =
      schema_events (clock w) ++
      [EvPoolQuery (SelectUserById U); EvPoolQuery (InsertUser U true);
       EvPoolQuery (SelectUserById U); EvPoolQuery (SelectProfileByUserId U);
       EvRespond reply] /\
    (forall t d u', In u' (user_rows d) -> id u' = U ->
       exec (InsertUser U true) t d = inr (NoRows, d)).
Proof.
  intros H Hx HU Hno u p reply.
  assert (Hf : List.find (has_id U) (user_rows (db w)) = None).
  { apply find_absent. intros x Hin. apply has_id_false, Hno, Hin. }
  pose proof (handler_dev_miss req w U H (dev_header req U Hx HU) Hf) as E.
  cbv zeta in E. eexists. split; [exact E|].
  split; [reflexivity|]. split.
  - apply issued_of. rewrite E. reflexivity.
  - intros t d u' Hin Hid. unfold exec, user_rows in *.
    destruct (users d) as [l|]; [|destruct Hin].
    cbn in Hin. replace (existsb (has_id U) l) with true; [reflexivity|].
    symmetry. apply existsb_exists. exists u'. split; [exact Hin|].
    apply has_id_true, Hid.
Qed.

Lemma dev_unknown_id_is_provisioned_witness :
  fault_free small_world /\
  fst (handler (dev_request "carol") small_world) =
    inr (mkResponse 200 (BodyProfile (new_user "carol" 1004) None None)).
Proof.
  assert (H : fault_free small_world) by (intros n; reflexivity).
  split; [exact H|].
  destruct (dev_unknown_id_is_provisioned (dev_request "carol") small_world "carol" H)
    as (w' & E & _).
  - reflexivity.
  - discriminate.
  - intros u [<-|[<-|[]]]; discriminate.
  - rewrite E. reflexivity.
Defined.

(** C7.  A request whose [x-user-id] is a non-empty [U] that a row of
    [users] already carries issues no insert and leaves every row of both
    tables as it was; the reply is 200 with the row the lookup by id
    selects, [created_at] included, which under the primary key is the
    one row with that id. *)
Theorem dev_known_id_is_untouched (req : Request) (w : World) (U : string) (u0 : User) :
  fault_free w ->
  headers req !! "x-user-id" = Some U ->
  U <> EmptyString ->
  In u0 (user_rows (db w)) ->
  id u0 = U ->
  let p := List.find (has_user_id U) (profile_rows (db w)) in
  let pt := match p with Some row => profile_type row | None => None end in
  exists u w',
    handler req w = (inr (mkResponse 200 (BodyProfile u p pt)), w') /\
    In u (user_rows (db w)) /\ id u = U /\
    (NoDup (map id (user_rows (db w))) -> u = u0) /\
    user_rows (db w') = user_rows (db w) /\
    profile_rows (db w') = profile_rows (db w) /\
    (forall U' b, ~ In (EvPoolQuery (InsertUser U' b)) (issued (handler req) w)).
Proof.
  intros H Hx HU Hin Hid p pt.
  destruct (find_present (has_id U) _ u0 Hin (proj2 (has_id_true u0 U) Hid)) as [u Hf].
  pose proof (handler_dev_hit req w U u H (dev_header req U Hx HU) Hf) as E.
  destruct (find_some _ _ Hf) as [Hu Hu'%has_id_true].
  unfold ok_profile in E. rewrite Hu' in E. fold p in E.
  exists u. eexists. split; [exact E|].
  split; [exact Hu|]. split; [exact Hu'|]. split; [|split; [reflexivity|split; [reflexivity|]]].
  - intros Hnd. pose proof (primary_key_find _ u0 Hnd Hin) as Hf0.
    rewrite Hid, Hf in Hf0. congruence.
  - intros U' b. rewrite (issued_of _ _ _ (f_equal (fun x => trace (snd x)) E)).
    cbn. intros [F|[F|[F|[F|[F|[F|[F|[]]]]]]]]; discriminate.
Qed.

Lemma dev_known_id_is_untouched_witness :
  fault_free small_world /\
  fst (handler (dev_request "bob") small_world) =
    inr (mkResponse 200 (BodyProfile bob None None)) /\
  user_rows (db (snd (handler (dev_request "bob") small_world))) = [alice; bob].
Proof.
  assert (H : fault_free small_world) by (intros n; reflexivity).
  split; [exact H|].
  destruct (dev_known_id_is_untouched (dev_request "bob") small_world "bob" bob H)
    as (u & w' & E & Hin & Hid & _ & Hrows & _).
  - reflexivity.
  - discriminate.
  - right. left. reflexivity.
  - reflexivity.
  - rewrite E. cbn [fst snd]. rewrite Hrows. split; [|reflexivity].
    destruct Hin as [<-|[<-|[]]]; [discriminate|reflexivity].
Defined.

(** C5.  Resolution is ordered and the first match wins: when a request
    carries a non-empty [x-user-id] and also [Authorization: Bearer T],
    the handler goes by the identifier.  Whatever the faults, no lookup by
    token is ever issued; and when the store answers, the lookup by id is
    issued and the reply is 200 with a user whose id is the header's. *)
Theorem dev_header_wins_over_bearer (req : Request) (w : World) (U T : string) :
  headers req !! "x-user-id" = Some U ->
  U <> EmptyString ->
  headers req !! "authorization" = Some ("Bearer " ++ T)%string ->
  (forall tok, ~ In (EvPoolQuery (SelectUserByToken tok)) (issued (handler req) w)) /\
  (fault_free w ->
   In (EvPoolQuery (SelectUserById U)) (issued (handler req) w) /\
   exists u p pt w',
     handler req w = (inr (mkResponse 200 (BodyProfile u p pt)), w') /\ id u = U).
Proof.
  intros Hx HU _. pose proof (dev_header req U Hx HU) as Hd. split.
  - intros tok. apply no_token_lookup_in, emits_issued, (handler_dev_emits req U Hd).
  - intros H. destruct (List.find (has_id U) (user_rows (db w))) as [u|] eqn:Hf.
    + pose proof (handler_dev_hit req w U u H Hd Hf) as E. split.
      * rewrite (issued_of _ _ _ (f_equal (fun x => trace (snd x)) E)).
        apply in_or_app. right. left. reflexivity.
      * eexists u, _, _, _. split; [exact E|].
        apply has_id_true. exact (proj2 (find_some _ _ Hf)).
    + pose proof (handler_dev_miss req w U H Hd Hf) as E. cbv zeta in E. split.
      * rewrite (issued_of _ _ _ (f_equal (fun x => trace (snd x)) E)).
        apply in_or_app. right. left. reflexivity.
      * eexists _, _, _, _. split; [exact E|]. reflexivity.
Qed.

Lemma dev_header_wins_over_bearer_witness :
  fault_free small_world /\
  ~ In (EvPoolQuery (SelectUserByToken "s3cret"))
       (issued (handler (both_request "bob" "Bearer s3cret")) small_world) /\
  In (EvPoolQuery (SelectUserById "bob"))
     (issued (handler (both_request "bob" "Bearer s3cret")) small_world).
Proof.
  assert (H : fault_free small_world) by (intros n; reflexivity).
  split; [exact H|].
  destruct (dev_header_wins_over_bearer (both_request "bob" "Bearer s3cret")
              small_world "bob" "s3cret") as [Hno Hyes].
  - reflexivity.
  - discriminate.
  - reflexivity.
  - split; [apply Hno | apply (Hyes H)].
Defined.

(** ** The bearer path *)

(** C2, as amended.  With no [x-user-id] header and [Authorization:
    Bearer T] for a non-empty [T] that no row of [users] holds as its
    token, no insert is ever issued, whatever the faults; and when the
    store answers, the reply is 401 with the invalid-credentials body and
    the rows of [users] are as they were. *)
Theorem bearer_unknown_token_is_rejected (req : Request) (w : World) (T : string) :
  headers req !! "x-user-id" = None ->
  headers req !! "authorization" = Some ("Bearer " ++ T)%string ->
  T <> EmptyString ->
  (forall u, In u (user_rows (db w)) -> token u <> Some T) ->
  (forall U b, ~ In (EvPoolQuery (InsertUser U b)) (issued (handler req) w)) /\
  (fault_free w ->
   exists w',
     handler req w = (inr (mkResponse 401 INVALID_AUTH), w') /\
     user_rows (db w') = user_rows (db w)).
Proof.
  intros Hx Ha HT Hno. pose proof (no_dev_header req Hx) as Hd. split.
  - intros U b. apply no_insert_in, emits_issued, (handler_no_dev_emits req Hd).
  - intros H.
    assert (Hb : truthy (bearer_of (or_empty (headers req !! "authorization"))) = Some T).
    { rewrite (bearer_header req T Ha). apply truthy_nonempty, HT. }
    assert (Hf : List.find (has_token T) (user_rows (db w)) = None).
    { apply find_absent. intros x Hin. apply has_token_false, Hno, Hin. }
    eexists. split; [exact (handler_bearer_miss req w T H Hd Hb Hf)|]. reflexivity.
Qed.

Lemma bearer_unknown_token_is_rejected_witness :
  fault_free small_world /\
  fst (handler (auth_request "Bearer nope") small_world) = inr (mkResponse 401 INVALID_AUTH).
Proof.
  assert (H : fault_free small_world) by (intros n; reflexivity).
  split; [exact H|].
  destruct (bearer_unknown_token_is_rejected (auth_request "Bearer nope") small_world "nope")
    as [_ Hr].
  - reflexivity.
  - reflexivity.
  - discriminate.
  - intros u [<-|[<-|[]]]; discriminate.
  - destruct (Hr H) as (w' & E & _). rewrite E. reflexivity.
Defined.

(** C2 as it was stated fails for the empty token: [Authorization:
    Bearer ] with nothing after the space has the form Bearer T, no row
    holds the empty token, and yet the reply is the missing-credentials
    401, not the invalid-credentials one. *)
Lemma bearer_empty_token_is_not_invalid_credentials :
  headers (auth_request "Bearer ") !! "x-user-id" = None /\
  headers (auth_request "Bearer ") !! "authorization" = Some ("Bearer " ++ EmptyString)%string /\
  (forall u, In u (user_rows (db small_world)) -> token u <> Some EmptyString) /\
  fault_free small_world /\
  fst (handler (auth_request "Bearer ") small_world) = inr (mkResponse 401 MISSING_AUTH) /\
  fst (handler (auth_request "Bearer ") small_world) <> inr (mkResponse 401 INVALID_AUTH).
Proof.
  split; [reflexivity|]. split; [reflexivity|].
  split; [intros u [<-|[<-|[]]]; discriminate|].
  split; [intros n; reflexivity|].
  split; [vm_compute; reflexivity|]. vm_compute. discriminate.
Qed.

(** C10.  With no [x-user-id] header and an [Authorization] header that
    is exactly the prefix, the empty token counts as no bearer credential:
    no lookup by token is ever issued, and when the store answers the
    reply is the missing-credentials 401. *)
Theorem bare_bearer_prefix_is_missing_credentials (req : Request) (w : World) :
  headers req !! "x-user-id" = None ->
  headers req !! "authorization" = Some "Bearer " ->
  (forall tok, ~ In (EvPoolQuery (SelectUserByToken tok)) (issued (handler req) w)) /\
  (fault_free w -> exists w', handler req w = (inr (mkResponse 401 MISSING_AUTH), w')).
Proof.
  intros Hx Ha. pose proof (no_dev_header req Hx) as Hd.
  assert (Hb : truthy (bearer_of (or_empty (headers req !! "authorization"))) = None)
    by (rewrite Ha; reflexivity).
  split.
  - intros tok. apply no_token_lookup_in, emits_issued, (handler_missing_emits req Hd Hb).
  - intros H. eexists. exact (handler_missing req w H Hd Hb).
Qed.

Lemma bare_bearer_prefix_is_missing_credentials_witness :
  fault_free small_world /\
  fst (handler (auth_request "Bearer ") small_world) = inr (mkResponse 401 MISSING_AUTH).
Proof.
  assert (H : fault_free small_world) by (intros n; reflexivity).
  split; [exact H|].
  destruct (bare_bearer_prefix_is_missing_credentials (auth_request "Bearer ") small_world)
    as [_ Hr]; [reflexivity | reflexivity |].
  destruct (Hr H) as (w' & E). rewrite E. reflexivity.
Defined.

(** ** No credentials *)

(** C3, as amended.  With no non-empty [x-user-id] and no [Authorization]
    header that begins with the prefix, no insert is ever issued, whatever
    the faults; when the store answers, the reply is the
    missing-credentials 401, the only statements issued are the two of the
    bootstrap, both tables exist afterwards, a missing one having been
    created empty, every row of both tables is as it was, and a store that
    already had both tables is unchanged. *)
Theorem missing_credentials_is_rejected (req : Request) (w : World) :
  truthy (headers req !! "x-user-id") = None ->
  (forall A, headers req !! "authorization" = Some A -> String.prefix "Bearer " A = false) ->
  (forall U b, ~ In (EvPoolQuery (InsertUser U b)) (issued (handler req) w)) /\
  (fault_free w ->
   exists w',
     handler req w = (inr (mkResponse 401 MISSING_AUTH), w') /\
     issued (handler req) w =
       schema_events (clock w) ++ [EvRespond (mkResponse 401 MISSING_AUTH)] /\
     users (db w') = Some (default [] (users (db w))) /\
     profiles (db w') = Some (default [] (profiles (db w))) /\
     user_rows (db w') = user_rows (db w) /\
     profile_rows (db w') = profile_rows (db w) /\
     (users (db w) <> None -> profiles (db w) <> None -> db w' = db w)).
Proof.
  intros Hx Ha. rewrite <- truthy_or_null in Hx.
  pose proof (no_bearer_header req Ha) as Hb. split.
  - intros U b. apply no_insert_in, emits_issued, (handler_no_dev_emits req Hx).
  - intros H. pose proof (handler_missing req w H Hx Hb) as E.
    eexists. split; [exact E|].
    split; [|split; [reflexivity|split; [reflexivity|split; [reflexivity|split; [reflexivity|]]]]].
    + apply issued_of. rewrite E. reflexivity.
    + apply bootstrapped_existing.
Qed.

Lemma missing_credentials_is_rejected_witness :
  fault_free small_world /\
  fst (handler no_headers small_world) = inr (mkResponse 401 MISSING_AUTH) /\
  db (snd (handler no_headers small_world)) = small_store /\
  db (snd (handler no_headers fresh_world)) = mkDatabase (Some []) (Some []).
Proof.
  assert (H : fault_free small_world) by (intros n; reflexivity).
  assert (H' : fault_free fresh_world) by (intros n; reflexivity).
  split; [exact H|].
  destruct (missing_credentials_is_rejected no_headers small_world) as [_ Hr];
    [reflexivity | intros A HA; discriminate HA |].
  destruct (missing_credentials_is_rejected no_headers fresh_world) as [_ Hr'];
    [reflexivity | intros A HA; discriminate HA |].
  destruct (Hr H) as (w' & E & _ & _ & _ & _ & _ & Hdb).
  destruct (Hr' H') as (w'' & E' & _ & Hu & Hp & _).
  rewrite E, E'. cbn [fst snd].
  split; [reflexivity|]. split; [apply Hdb; discriminate|].
  destruct (db w'') as [us ps]. cbn in Hu, Hp. rewrite Hu, Hp. reflexivity.
Defined.

(** C3 as it was stated fails on a store without tables: the request
    carries neither credential and is answered 401, yet the bootstrap has
    run its two CREATE TABLE statements before the headers were read and
    the store is no longer the one the request found. *)
Lemma missing_credentials_still_writes_schema :
  truthy (headers no_headers !! "x-user-id") = None /\
  headers no_headers !! "authorization" = None /\
  fault_free fresh_world /\
  fst (handler no_headers fresh_world) = inr (mkResponse 401 MISSING_AUTH) /\
  In (EvClientQuery 0%nat CREATE_USERS) (issued (handler no_headers) fresh_world) /\
  db fresh_world = mkDatabase None None /\
  db (snd (handler no_headers fresh_world)) = mkDatabase (Some []) (Some []) /\
  db (snd (handler no_headers fresh_world)) <> db fresh_world.
Proof.
  split; [reflexivity|]. split; [reflexivity|]. split; [intros n; reflexivity|].
  split; [vm_compute; reflexivity|].
  split; [vm_compute; right; left; reflexivity|].
  split; [reflexivity|]. split; [vm_compute; reflexivity|].
  vm_compute. discriminate.
Qed.

(** C6.  Where there is no non-empty [x-user-id], an [Authorization]
    header that does not begin with [Bearer ] (capital B, one space) gives
    the very run that the request without the header gives: same outcome
    and same world after it, under every fault schedule.  When the store
    answers, that outcome is the missing-credentials 401. *)
Theorem malformed_authorization_is_no_authorization (req : Request) (A : string) (w : World) :
  truthy (headers req !! "x-user-id") = None ->
  String.prefix "Bearer " A = false ->
  handler (with_authorization (Some A) req) w = handler (with_authorization None req) w /\
  (fault_free w ->
   exists w',
     handler (with_authorization (Some A) req) w = (inr (mkResponse 401 MISSING_AUTH), w')).
Proof.
  intros Hx HA.
  assert (Hd1 : truthy (or_null (headers (with_authorization (Some A) req) !! "x-user-id")) = None).
  { rewrite truthy_or_null. cbn [with_authorization headers].
    rewrite lookup_insert_ne by discriminate. exact Hx. }
  assert (Hd2 : truthy (or_null (headers (with_authorization None req) !! "x-user-id")) = None).
  { rewrite truthy_or_null. cbn [with_authorization headers].
    rewrite lookup_delete_ne by discriminate. exact Hx. }
  assert (Hb1 : truthy (bearer_of (or_empty
                  (headers (with_authorization (Some A) req) !! "authorization"))) = None).
  { apply no_bearer_header. cbn [with_authorization headers].
    rewrite lookup_insert_eq. intros A' [= <-]. exact HA. }
  assert (Hb2 : truthy (bearer_of (or_empty
                  (headers (with_authorization None req) !! "authorization"))) = None).
  { cbn [with_authorization headers]. rewrite lookup_delete_eq. reflexivity. }
  split.
  - unfold handler, handler_try. rewrite Hd1, Hd2, Hb1, Hb2. reflexivity.
  - intros H. eexists. exact (handler_missing _ w H Hd1 Hb1).
Qed.

Lemma malformed_authorization_is_no_authorization_witness :
  fault_free small_world /\
  handler (with_authorization (Some "bearer s3cret") no_headers) small_world =
    handler (with_authorization None no_headers) small_world /\
  fst (handler (with_authorization (Some "bearer s3cret") no_headers) small_world) =
    inr (mkResponse 401 MISSING_AUTH).
Proof.
  assert (H : fault_free small_world) by (intros n; reflexivity).
  split; [exact H|].
  destruct (malformed_authorization_is_no_authorization no_headers "bearer s3cret" small_world)
    as [Heq Hr]; [reflexivity | reflexivity |].
  split; [exact Heq|]. destruct (Hr H) as (w' & E). rewrite E. reflexivity.
Defined.

(** ** The reply for a resolved user *)

(** C4.  Once a request resolves to a user, the handler looks up the
    profile row of that user's id and replies 200 with the user, the row
    or null, and the row's [profile_type] or null; a missing row is not
    an error. *)
Theorem resolved_user_gets_profile (req : Request) (w : World) (u : User) :
  fault_free w ->
  resolves req w u ->
  let p := List.find (has_user_id (id u)) (profile_rows (db w)) in
  let pt := match p with Some row => profile_type row | None => None end in
  exists w',
    handler req w = (inr (mkResponse 200 (BodyProfile u p pt)), w') /\
    In (EvPoolQuery (SelectProfileByUserId (id u))) (issued (handler req) w) /\
    (forall row, p = Some row -> In row (profile_rows (db w)) /\ user_id row = id u).
Proof.
  intros H Hres p pt.
  assert (Hp : forall row, p = Some row -> In row (profile_rows (db w)) /\ user_id row = id u).
  { intros row Hrow. destruct (find_some _ _ Hrow) as [Hin Hid]. split; [exact Hin|].
    unfold has_user_id in Hid. apply bool_decide_eq_true in Hid. exact Hid. }
  destruct Hres as [U u HU Hf | U HU Hf | T u HU HT Hf];
    rewrite <- truthy_or_null in HU.
  - pose proof (handler_dev_hit req w U u H HU Hf) as E.
    eexists. split; [exact E|]. split; [|exact Hp].
    rewrite (issued_of _ _ _ (f_equal (fun x => trace (snd x)) E)).
    apply in_or_app. right. right. left. reflexivity.
  - pose proof (handler_dev_miss req w U H HU Hf) as E. cbv zeta in E.
    eexists. split; [exact E|]. split; [|exact Hp].
    rewrite (issued_of _ _ _ (f_equal (fun x => trace (snd x)) E)).
    apply in_or_app. right. do 3 right. left. reflexivity.
  - pose proof (handler_bearer_hit req w T u H HU HT Hf) as E.
    eexists. split; [exact E|]. split; [|exact Hp].
    rewrite (issued_of _ _ _ (f_equal (fun x => trace (snd x)) E)).
    apply in_or_app. right. right. left. reflexivity.
Qed.

Lemma resolved_user_gets_profile_witness :
  fault_free small_world /\
  resolves (auth_request "Bearer s3cret") small_world alice /\
  resolves (dev_request "bob") small_world bob /\
  fst (handler (auth_request "Bearer s3cret") small_world) =
    inr (mkResponse 200 (BodyProfile alice (Some alice_profile) (Some "musician"))) /\
  fst (handler (dev_request "bob") small_world) =
    inr (mkResponse 200 (BodyProfile bob None None)).
Proof.
  assert (H : fault_free small_world) by (intros n; reflexivity).
  assert (Ha : resolves (auth_request "Bearer s3cret") small_world alice).
  { apply (resolves_bearer _ _ "s3cret"); reflexivity. }
  assert (Hb : resolves (dev_request "bob") small_world bob).
  { apply (resolves_dev_known _ _ "bob"); reflexivity. }
  split; [exact H|]. split; [exact Ha|]. split; [exact Hb|]. split.
  - destruct (resolved_user_gets_profile _ _ _ H Ha) as (w' & E & _). rewrite E. reflexivity.
  - destruct (resolved_user_gets_profile _ _ _ H Hb) as (w' & E & _). rewrite E. reflexivity.
Defined.

(** ** Failures *)

Ltac break_match :=
  match goal with
  | |- context [match ?x with _ => _ end] =>
      lazymatch x with
      | context [match _ with _ => _ end] => fail
      | (_, _) => fail
      | inl _ => fail
      | inr _ => fail
      | Some _ => fail
      | None => fail
      | _ => destruct x eqn:?
      end
  end.

(** Splits a goal about [handler req w], [w] given by its fields, into
    one goal per way the run can go. *)
Ltac settle :=
  repeat (progress (autorewrite with run;
                    cbn [exec users profiles bootstrapped user_rows
                         profile_rows default];
                    cbv beta iota)).

Ltac all_runs :=
  unfold handler, try_catch, handler_try, getUserById, getUserByToken,
         getProfileForUser, console_error, SERVER_ERROR, MISSING_AUTH, INVALID_AUTH;
  rewrite bind_eq, ensureSchema_run;
  settle; repeat (break_match; settle).

Lemma calls_table (req : Request) (w : World) :
  calls req w =
  match truthy (or_null (headers req !! "x-user-id")) with
  | Some U =>
      match List.find (has_id U) (user_rows (db w)) with
      | Some _ => 6%nat
      | None => 8%nat
      end
  | None =>
      match truthy (bearer_of (or_empty (headers req !! "authorization"))) with
      | Some T =>
          match List.find (has_token T) (user_rows (db w)) with
          | Some _ => 6%nat
          | None => 5%nat
          end
      | None => 4%nat
      end
  end.
Proof.
  assert (H : fault_free (calm w)) by (intros n; reflexivity).
  unfold calls.
  destruct (truthy (or_null (headers req !! "x-user-id"))) as [U|] eqn:HU.
  - destruct (List.find (has_id U) (user_rows (db w))) as [u|] eqn:Hf.
    + rewrite (handler_dev_hit req (calm w) U u H HU Hf). cbn. lia.
    + pose proof (handler_dev_miss req (calm w) U H HU Hf) as E. cbv zeta in E.
      rewrite E. cbn. lia.
  - destruct (truthy (bearer_of (or_empty (headers req !! "authorization"))))
      as [T|] eqn:HT.
    + destruct (List.find (has_token T) (user_rows (db w))) as [u|] eqn:Hf.
      * rewrite (handler_bearer_hit req (calm w) T u H HU HT Hf). cbn. lia.
      * rewrite (handler_bearer_miss req (calm w) T H HU HT Hf). cbn. lia.
    + rewrite (handler_missing req (calm w) H HU HT). cbn. lia.
Qed.

(** Turns [H : forall j, j < n -> f (j + c) = None], [n] a numeral, into
    one fact per slot. *)
Ltac slots_before H n :=
  lazymatch n with
  | O => idtac
  | S ?m =>
      let F := fresh "F" in
      assert (F := H m ltac:(lia)); cbn [Nat.add] in F; slots_before H m
  end.

Ltac with_slots :=
  repeat match goal with
         | F : ?f _ = None |- context [?f _] => rewrite F
         | F : ?f _ = Some _ |- context [?f _] => rewrite F
         end.

(** An id that the first lookup missed is free for the insert and is
    found by the second lookup. *)
Ltac known_rows :=
  repeat match goal with
         | H : List.find ?p ?l = None |- context [existsb ?p ?l] =>
             rewrite (find_absent_existsb p l H)
         | H : List.find (has_id ?U) ?l = None
           |- context [List.find (has_id ?U) (?l ++ [?x])] =>
             rewrite (find_appended (has_id U) l x H)
               by (apply has_id_true; reflexivity)
         end.

(** The run of [handler req w] when the first fault is at a known slot;
    [Hk] bounds that slot by the calls of the request. *)
Ltac first_fault Hk :=
  unfold handler, try_catch, handler_try, getUserById, getUserByToken,
         getProfileForUser, console_error, SERVER_ERROR, MISSING_AUTH, INVALID_AUTH;
  rewrite bind_eq, ensureSchema_run; cbn [Nat.add];
  repeat (progress (with_slots; cbv beta iota; settle; cbn [Nat.add];
                    cbv beta iota in Hk));
  repeat (break_match;
          repeat (progress (with_slots; known_rows; cbv beta iota; settle;
                            cbn [Nat.add]; cbv beta iota in Hk))).

Ltac flat_trace :=
  cbn [trace]; unfold schema_events; rewrite <- ?app_assoc; cbn [app].

Ltac logged_and_replied :=
  flat_trace;
  match goal with
  | |- exists evs, ?tr ++ ?L = ?tr ++ evs ++ [EvLog _; EvRespond _] /\ _ =>
      exists (removelast (removelast L));
      split; [reflexivity | cbn; repeat constructor]
  end.

Ltac only_logged :=
  flat_trace;
  match goal with
  | |- exists evs, ?tr ++ ?L = ?tr ++ evs /\ _ =>
      exists L; split; [reflexivity | repeat constructor]
  end.

(** Whichever external call of a request fails first, the exception is
    caught and logged; what happens next depends on sending the 500. *)
Lemma first_fault_is_caught (req : Request) (w : World) (k : nat) (e : Exn) :
  (k < calls req w)%nat ->
  (forall j, (j < k)%nat -> faults w (j + clock w) = None) ->
  faults w (k + clock w) = Some e ->
  match faults w (S k + clock w) with
  | None =>
      exists w',
        handler req w = (inr (mkResponse 500 (SERVER_ERROR e)), w') /\
        exists evs,
          trace w' =
            trace w ++ evs ++ [EvLog e; EvRespond (mkResponse 500 (SERVER_ERROR e))] /\
          Forall not_respond evs
  | Some e' =>
      exists w',
        handler req w = (inl e', w') /\
        exists evs, trace w' = trace w ++ evs /\ Forall not_respond evs
  end.
Proof.
  intros Hk Hbefore Hat. rewrite calls_table in Hk.
  destruct w as [d l c tr f nw]. cbn [clock faults db trace user_rows] in *.
  do 8 (destruct k as [|k];
        [ match type of Hbefore with
          | forall j, (j < ?n)%nat -> _ => slots_before Hbefore n
          end;
          clear Hbefore; cbn [Nat.add] in Hat |- *;
          destruct (f _) as [e'|] eqn:Hnext in |- *;
          first_fault Hk;
          try (exfalso; lia);
          eexists; (split; [reflexivity|]);
          first [ logged_and_replied | only_logged ]
        | ]).
  exfalso.
  repeat (cbv beta iota in Hk;
          match type of Hk with
          | context [match ?x with _ => _ end] =>
              lazymatch x with
              | context [match _ with _ => _ end] => fail
              | _ => destruct x
              end
          end);
    cbv beta iota in Hk; lia.
Qed.

(** C8, as amended.  Whichever external call of a request is the first
    to fail, be it connecting, either CREATE TABLE, a lookup, the insert
    or sending the 200 or 401 reply, the exception [e] is caught and
    logged; when sending the 500 goes through, the reply is 500 with body
    [{ error: "Server error", details: String(e.message || e) }] and it is
    the only reply.  When sending the 500 throws as well, that exception
    leaves the handler and nothing was replied. *)
Theorem handler_catches_every_failure (req : Request) (w : World) (k : nat) (e : Exn) :
  (k < calls req w)%nat ->
  (forall j, (j < k)%nat -> faults w (j + clock w) = None) ->
  faults w (k + clock w) = Some e ->
  let reply := mkResponse 500 (BodyServerError "Server error" (error_details e)) in
  (faults w (S k + clock w) = None ->
   exists w',
     handler req w = (inr reply, w') /\
     exists evs,
       issued (handler req) w = evs ++ [EvLog e; EvRespond reply] /\
       forall r, ~ In (EvRespond r) evs) /\
  (forall e', faults w (S k + clock w) = Some e' ->
   exists w',
     handler req w = (inl e', w') /\
     forall r, ~ In (EvRespond r) (issued (handler req) w)).
Proof.
  intros Hk Hbefore Hat reply.
  pose proof (first_fault_is_caught req w k e Hk Hbefore Hat) as H.
  split.
  - intros Hnext. rewrite Hnext in H. destruct H as (w' & E & evs & Htr & Hno).
    exists w'. split; [exact E|]. exists evs. split.
    + apply issued_of. rewrite E. exact Htr.
    + intros r Hin. rewrite List.Forall_forall in Hno. exact (Hno _ Hin).
  - intros e' Hnext. rewrite Hnext in H. destruct H as (w' & E & evs & Htr & Hno).
    exists w'. split; [exact E|].
    rewrite (issued_of _ _ evs (eq_trans (f_equal (fun x => trace (snd x)) E) Htr)).
    intros r Hin. rewrite List.Forall_forall in Hno. exact (Hno _ Hin).
Qed.

Lemma handler_catches_every_failure_witness :
  (4 < calls (dev_request "carol") (faulty_world 4 boom))%nat /\
  fst (handler (dev_request "carol") (faulty_world 4 boom)) =
    inr (mkResponse 500
           (BodyServerError "Server error" "connection terminated unexpectedly")).
Proof.
  assert (Hk : (4 < calls (dev_request "carol") (faulty_world 4 boom))%nat)
    by (vm_compute; lia).
  split; [exact Hk|].
  destruct (handler_catches_every_failure (dev_request "carol") (faulty_world 4 boom)
              4 boom Hk) as [Hsent _].
  - intros j Hj. do 4 (destruct j as [|j]; [reflexivity|]). lia.
  - reflexivity.
  - destruct Hsent as (w' & E & _); [reflexivity|]. rewrite E. reflexivity.
Defined.

(** C8 as it was stated fails when the reply of the catch block cannot
    be sent either: the insert throws, the handler catches and logs it,
    [res.status(500).json] throws in turn, and that exception leaves the
    handler with no reply sent. *)
Lemma failed_500_send_escapes :
  fst (handler_try (dev_request "carol") (failing_world 4 boom)) = inl boom /\
  fst (handler (dev_request "carol") (failing_world 4 boom)) = inl boom /\
  (forall reply, fst (handler (dev_request "carol") (failing_world 4 boom)) <> inr reply) /\
  issued (handler (dev_request "carol")) (failing_world 4 boom) =
    schema_events 0%nat ++
    [EvPoolQuery (SelectUserById "carol"); EvPoolQuery (InsertUser "carol" true);
     EvLog boom].
Proof.
  split; [vm_compute; reflexivity|].
  split; [vm_compute; reflexivity|].
  split; [intros reply; vm_compute; discriminate|].
  vm_compute. reflexivity.
Qed.

(** A fault in each external call of a dev-header request for a known
    user, in turn: connecting, either CREATE TABLE, the user lookup, the
    profile lookup, sending the reply.  Each ends in the same 500. *)
Lemma failure_at_each_stage (k : nat) :
  (k < 6)%nat ->
  fst (handler (dev_request "bob") (faulty_world k boom)) =
    inr (mkResponse 500
           (BodyServerError "Server error" "connection terminated unexpectedly")).
Proof.
  intros Hk.
  do 6 (destruct k as [|k]; [vm_compute; reflexivity|]). lia.
Qed.

(** An exception without a message is reported by its name. *)
Lemma failure_without_message :
  fst (handler no_headers (faulty_world 0 (mkExn "AggregateError" EmptyString))) =
    inr (mkResponse 500 (BodyServerError "Server error" "AggregateError")).
Proof. vm_compute. reflexivity. Qed.

(** ** The schema bootstrapper *)

Lemma times_ensureSchema_ok (n : nat) :
  forall w, fault_free w ->
  exists w', times (S n) ensureSchema w = (inr tt, w') /\
             db w' = bootstrapped (db w) /\ leased w' = leased w.
Proof.
  induction n as [|n IH]; intros w H.
  - cbn [times]. rewrite (bind_ok _ _ _ _ _ (ensureSchema_ok w H)).
    eexists. split; [reflexivity|]. split; reflexivity.
  - change (times (S (S n)) ensureSchema) with (do! ensureSchema in times (S n) ensureSchema).
    rewrite (bind_ok _ _ _ _ _ (ensureSchema_ok w H)).
    destruct (IH (world_after w (bootstrapped (db w)) 3 (schema_events (clock w))))
      as (w' & E & Hdb & Hl).
    { intros k. apply H. }
    exists w'. split; [exact E|]. split; [rewrite Hdb; reflexivity | rewrite Hl; reflexivity].
Qed.

(** C9.  The bootstrapper asks the pool for a client once.  If that call
    fails nothing was acquired and nothing else happens.  Otherwise it
    issues CREATE TABLE IF NOT EXISTS for [users] and then for [profiles]
    on that client, stops at the first of the two that fails, and in every
    case releases the client as its last act, so that the pool has as many
    clients out after it as before.  What it throws is what the failing
    call threw, never an error of the store about an object that exists;
    run any number of times in succession on a store that answers, it
    returns normally each time and leaves the rows alone. *)
Theorem ensureSchema_contract (w : World) :
  let c := clock w in
  let r := fst (ensureSchema w) in
  let w' := snd (ensureSchema w) in
  leased w' = leased w /\
  (forall e, faults w c = Some e ->
     r = inl e /\ issued ensureSchema w = []) /\
  (forall e, faults w c = None -> faults w (S c) = Some e ->
     r = inl e /\
     issued ensureSchema w = [EvConnect c; EvClientQuery c CREATE_USERS; EvRelease c]) /\
  (forall e, faults w c = None -> faults w (S c) = None -> faults w (S (S c)) = Some e ->
     r = inl e /\ issued ensureSchema w = schema_events c) /\
  (faults w c = None -> faults w (S c) = None -> faults w (S (S c)) = None ->
     r = inr tt /\ issued ensureSchema w = schema_events c /\
     db w' = bootstrapped (db w)) /\
  (fault_free w ->
   forall n, exists w'', times (S n) ensureSchema w = (inr tt, w'') /\
                         db w'' = bootstrapped (db w) /\ leased w'' = leased w).
Proof.
  intros c r w'. subst c r w'.
  split; [|split; [|split; [|split; [|split]]]].
  - destruct w as [d l c tr f nw]. rewrite ensureSchema_run.
    destruct (f c); [reflexivity|]. destruct (f (S c)); [reflexivity|].
    destruct (f (S (S c))); reflexivity.
  - intros e H0. destruct w as [d l c tr f nw]. cbn [faults clock] in H0.
    unfold issued. rewrite ensureSchema_run, H0. cbn [fst snd trace].
    split; [reflexivity|]. apply drop_all.
  - intros e H0 H1. destruct w as [d l c tr f nw]. cbn [faults clock] in H0, H1 |- *.
    unfold issued. rewrite ensureSchema_run, H0, H1. cbn [fst snd trace].
    split; [reflexivity|]. apply drop_app_length.
  - intros e H0 H1 H2. destruct w as [d l c tr f nw]. cbn [faults clock] in H0, H1, H2 |- *.
    unfold issued. rewrite ensureSchema_run, H0, H1, H2. cbn [fst snd trace].
    split; [reflexivity|]. apply drop_app_length.
  - intros H0 H1 H2. destruct w as [d l c tr f nw]. cbn [faults clock] in H0, H1, H2 |- *.
    unfold issued. rewrite ensureSchema_run, H0, H1, H2. cbn [fst snd trace db].
    split; [reflexivity|]. split; [apply drop_app_length | reflexivity].
  - intros H n. apply times_ensureSchema_ok, H.
Qed.

Lemma ensureSchema_contract_witness :
  fault_free fresh_world /\
  (fst (ensureSchema (faulty_world 1 boom)) = inl boom /\
   issued ensureSchema (faulty_world 1 boom) =
     [EvConnect 0%nat; EvClientQuery 0%nat CREATE_USERS; EvRelease 0%nat]) /\
  exists w'', times 3 ensureSchema fresh_world = (inr tt, w'') /\
              db w'' = mkDatabase (Some []) (Some []) /\ leased w'' = 0%nat.
Proof.
  assert (H : fault_free fresh_world) by (intros n; reflexivity).
  split; [exact H|]. split.
  - destruct (ensureSchema_contract (faulty_world 1 boom)) as (_ & _ & Hu & _).
    apply (Hu boom); reflexivity.
  - destruct (ensureSchema_contract fresh_world) as (_ & _ & _ & _ & _ & Hn).
    exact (Hn H 2%nat).
Defined.

(** * Further properties of the code *)

(** ** Frames *)

Section Keeps.
Variable R : World -> World -> Prop.
Variable Q : Stmt -> Prop.
Hypothesis R_refl : forall w, R w w.
Hypothesis R_trans : forall w1 w2 w3, R w1 w2 -> R w2 w3 -> R w1 w3.
Hypothesis R_emit : forall ev, keeps R (emit ev).
Hypothesis R_external : keeps R external.
Hypothesis R_stmt : forall q n, Q q -> keeps R (run_stmt q n).
Hypothesis R_schema : keeps R ensureSchema.

Lemma keeps_ret {A} (a : A) : keeps R (ret a).
Proof. intros w. apply R_refl. Qed.

Lemma keeps_bind {A B} (m : M A) (k : A -> M B) :
  keeps R m -> (forall a, keeps R (k a)) -> keeps R (bind m k).
Proof.
  intros Hm Hk w. unfold bind. specialize (Hm w).
  destruct (m w) as [[e|a] w1]; cbn [snd] in *; [exact Hm|].
  exact (R_trans _ _ _ Hm (Hk a w1)).
Qed.

Lemma keeps_try_catch {A} (m : M A) (h : Exn -> M A) :
  keeps R m -> (forall e, keeps R (h e)) -> keeps R (try_catch m h).
Proof.
  intros Hm Hh w. unfold try_catch. specialize (Hm w).
  destruct (m w) as [[e|a] w1]; cbn [snd] in *; [|exact Hm].
  exact (R_trans _ _ _ Hm (Hh e w1)).
Qed.

Lemma keeps_pool_query (q : Stmt) : Q q -> keeps R (pool_query q).
Proof.
  intros Hq. unfold pool_query.
  apply keeps_bind; [apply R_emit|]. intros _.
  apply keeps_bind; [apply R_external|]. intros n. apply R_stmt, Hq.
Qed.

Lemma keeps_res_json (s : Z) (b : Body) : keeps R (res_json s b).
Proof.
  unfold res_json. apply keeps_bind; [apply R_external|].
  intros _. apply keeps_bind; [apply R_emit|]. intros _. apply keeps_ret.
Qed.

(** The handler keeps [R] as soon as the statements it can issue do:
    three kinds of SELECT, and the INSERT for the id of a dev header. *)
Lemma keeps_handler (req : Request) :
  (forall U, Q (SelectUserById U)) ->
  (forall T, Q (SelectUserByToken T)) ->
  (forall U, Q (SelectProfileByUserId U)) ->
  (forall U, truthy (headers req !! "x-user-id") = Some U -> Q (InsertUser U true)) ->
  keeps R (handler req).
Proof.
  intros Hid Htok Hprof Hins. unfold handler, handler_try.
  rewrite truthy_or_null.
  apply keeps_try_catch.
  - apply keeps_bind; [exact R_schema|]. intros _. apply keeps_bind.
    + destruct (truthy (headers req !! "x-user-id")) as [U|] eqn:HU.
      * unfold getUserById.
        apply keeps_bind; [apply keeps_bind; [apply keeps_pool_query, Hid|]; intro; apply keeps_ret|].
        intros [u|]; [apply keeps_ret|].
        apply keeps_bind; [apply keeps_pool_query, Hins; reflexivity|]. intros _.
        apply keeps_bind; [apply keeps_bind; [apply keeps_pool_query, Hid|]; intro; apply keeps_ret|].
        intro. apply keeps_ret.
      * destruct (truthy (bearer_of _)) as [T|].
        -- unfold getUserByToken.
           apply keeps_bind; [apply keeps_bind; [apply keeps_pool_query, Htok|]; intro; apply keeps_ret|].
           intro. apply keeps_ret.
        -- apply keeps_bind; [apply keeps_res_json|]. intro. apply keeps_ret.
    + intros [sent|[u|]]; [apply keeps_ret| |apply keeps_res_json].
      unfold getProfileForUser.
      apply keeps_bind; [apply keeps_bind; [apply keeps_pool_query, Hprof|]; intro; apply keeps_ret|].
      intro. apply keeps_res_json.
  - intros e. unfold console_error. apply keeps_bind; [apply R_emit|].
    intros _. apply keeps_res_json.
Qed.
End Keeps.

(** The bootstrap under any fault schedule, seen from the store: rows
    are never touched and a table that exists is left as it is. *)
Lemma ensureSchema_store (w : World) :
  let d := db w in
  let d' := db (snd (ensureSchema w)) in
  leased (snd (ensureSchema w)) = leased w /\
  user_rows d' = user_rows d /\
  profile_rows d' = profile_rows d /\
  (forall l, users d = Some l -> users d' = Some l) /\
  (forall l, profiles d = Some l -> profiles d' = Some l).
Proof.
  destruct w as [[us ps] l c tr f nw]. rewrite ensureSchema_run.
  destruct (f c), (f (S c)), (f (S (S c))), us, ps; cbn; repeat split; auto; discriminate.
Qed.

(** X10.  Under every fault schedule, for every store, the bootstrap leaves
    the rows of both tables as they were and does not replace a table
    that already exists: all it can change is to create a missing, empty
    table. *)
Theorem ensureSchema_never_touches_rows (w : World) :
  let d := db w in
  let d' := db (snd (ensureSchema w)) in
  user_rows d' = user_rows d /\
  profile_rows d' = profile_rows d /\
  (forall l, users d = Some l -> users d' = Some l) /\
  (forall l, profiles d = Some l -> profiles d' = Some l) /\
  (users d <> None -> profiles d <> None -> d' = d).
Proof.
  cbv zeta. destruct (ensureSchema_store w) as (_ & Hu & Hp & Hus & Hps).
  split; [exact Hu|]. split; [exact Hp|]. split; [exact Hus|]. split; [exact Hps|].
  intros H1 H2.
  destruct (db w) as [[us|] [ps|]]; cbn in H1, H2; try congruence.
  destruct (db (snd (ensureSchema w))) as [us' ps']. cbn in Hus, Hps.
  rewrite (Hus us eq_refl), (Hps ps eq_refl). reflexivity.
Qed.

Lemma ensureSchema_never_touches_rows_witness :
  db (snd (ensureSchema (faulty_world 2 boom))) = small_store.
Proof.
  destruct (ensureSchema_never_touches_rows (faulty_world 2 boom)) as (_ & _ & _ & _ & H).
  apply H; discriminate.
Defined.

Lemma same_leased_steps :
  (forall ev, keeps same_leased (emit ev)) /\
  keeps same_leased external /\
  (forall q n, keeps same_leased (run_stmt q n)) /\
  keeps same_leased ensureSchema.
Proof.
  repeat split.
  - intros w. unfold external. destruct (faults w (clock w)); reflexivity.
  - intros q n w. unfold run_stmt.
    destruct (exec q (now w n) (db w)) as [e|[rows d]]; reflexivity.
  - intros w. exact (proj1 (ensureSchema_store w)).
Qed.

(** X1.  Whatever fails and wherever, the handler hands every client it
    took from the pool back: as many are out after the request as
    before. *)
Theorem handler_never_leaks_a_client (req : Request) (w : World) :
  leased (snd (handler req w)) = leased w.
Proof.
  destruct same_leased_steps as (He & Hx & Hs & Hb).
  assert (Htrans : forall w1 w2 w3,
             same_leased w1 w2 -> same_leased w2 w3 -> same_leased w1 w3).
  { unfold same_leased. intros w1 w2 w3 H12 H23. congruence. }
  exact (keeps_handler same_leased any_stmt (fun _ => eq_refl) Htrans He Hx
           (fun q n _ => Hs q n) Hb req
           (fun _ => I) (fun _ => I) (fun _ => I) (fun _ _ => I) w).
Qed.

Lemma exec_rows (q : Stmt) (t : Z) (d : Database) (rows : Rows) (d' : Database) :
  exec q t d = inr (rows, d') ->
  profile_rows d' = profile_rows d /\
  (user_rows d' = user_rows d \/
   exists U b, q = InsertUser U b /\
     List.find (has_id U) (user_rows d) = None /\
     user_rows d' = user_rows d ++ [new_user U t]).
Proof.
  destruct d as [us ps]. unfold exec, user_rows, profile_rows.
  destruct q as [ine [|]|U|T|U|U b]; cbn [users profiles];
    repeat match goal with
           | |- context [match ?x with _ => _ end] => destruct x eqn:?
           end;
    intros [= <- <-] || intros [=]; cbn; try (split; [reflexivity|left; reflexivity]).
  split; [reflexivity|]. right. exists U, b. split; [reflexivity|]. split; [|reflexivity].
  apply find_absent. intros x Hx.
  apply not_true_is_false. intros Hid.
  assert (existsb (has_id U) l = true) by (apply existsb_exists; eauto).
  congruence.
Qed.

Lemma rows_kept_steps :
  (forall ev, keeps rows_kept (emit ev)) /\
  keeps rows_kept external /\
  (forall q n, no_insert_stmt q -> keeps rows_kept (run_stmt q n)) /\
  keeps rows_kept ensureSchema.
Proof.
  unfold keeps, rows_kept. repeat split.
  - unfold external. destruct (faults w (clock w)); reflexivity.
  - unfold external. destruct (faults w (clock w)); reflexivity.
  - unfold run_stmt. destruct (exec q (now w n) (db w)) as [e|[rows d]] eqn:E; [reflexivity|].
    destruct (exec_rows _ _ _ _ _ E) as (_ & [Hu|(U & b & -> & _)]); [exact Hu|destruct H].
  - unfold run_stmt. destruct (exec q (now w n) (db w)) as [e|[rows d]] eqn:E; [reflexivity|].
    exact (proj1 (exec_rows _ _ _ _ _ E)).
  - apply (ensureSchema_store w).
  - apply (ensureSchema_store w).
Qed.

Lemma handler_nodev_rows (req : Request) (w : World) :
  truthy (headers req !! "x-user-id") = None -> rows_kept w (snd (handler req w)).
Proof.
  intros Hx. destruct rows_kept_steps as (He & Hex & Hs & Hb).
  assert (Hrefl : forall w0, rows_kept w0 w0) by (intros w0; split; reflexivity).
  assert (Htrans : forall w1 w2 w3, rows_kept w1 w2 -> rows_kept w2 w3 -> rows_kept w1 w3).
  { intros w1 w2 w3 [H1 H2] [H3 H4]. split; congruence. }
  assert (Hins : forall U, truthy (headers req !! "x-user-id") = Some U ->
                           no_insert_stmt (InsertUser U true)) by (intros U HU; congruence).
  exact (keeps_handler rows_kept no_insert_stmt Hrefl Htrans He Hex Hs Hb req
           (fun _ => I) (fun _ => I) (fun _ => I) Hins w).
Qed.

(** X6.  Only the dev header writes rows: for a request without a
    non-empty [x-user-id], under every fault schedule, the rows of [users]
    and of [profiles] after the request are the rows before it, whether
    the bearer token matched or not. *)
Theorem handler_without_dev_id_keeps_rows (req : Request) (w : World) :
  truthy (headers req !! "x-user-id") = None ->
  user_rows (db (snd (handler req w))) = user_rows (db w) /\
  profile_rows (db (snd (handler req w))) = profile_rows (db w).
Proof. intros Hx. exact (handler_nodev_rows req w Hx). Qed.

Lemma handler_without_dev_id_keeps_rows_witness :
  user_rows (db (snd (handler (auth_request "Bearer s3cret") (faulty_world 4 boom)))) =
    [alice; bob].
Proof.
  destruct (handler_without_dev_id_keeps_rows
              (auth_request "Bearer s3cret") (faulty_world 4 boom)) as [H _];
    [reflexivity | exact H].
Defined.

Lemma provisions_refl (U : string) (w : World) : provisions U w w.
Proof. split; [reflexivity | left; reflexivity]. Qed.

Lemma provisions_trans (U : string) (w1 w2 w3 : World) :
  provisions U w1 w2 -> provisions U w2 w3 -> provisions U w1 w3.
Proof.
  intros [Hp1 H1] [Hp2 H2]. split; [congruence|].
  destruct H1 as [E1|(Hf1 & t1 & E1)], H2 as [E2|(Hf2 & t2 & E2)].
  - left. congruence.
  - right. rewrite <- E1. split; [exact Hf2|]. exists t2. exact E2.
  - right. split; [exact Hf1|]. exists t1. congruence.
  - exfalso. rewrite E1 in Hf2.
    rewrite (find_appended (has_id U) _ (new_user U t1) Hf1) in Hf2; [discriminate|].
    apply has_id_true. reflexivity.
Qed.

Lemma provisions_steps (U : string) :
  (forall ev, keeps (provisions U) (emit ev)) /\
  keeps (provisions U) external /\
  (forall q n, insert_only_for U q -> keeps (provisions U) (run_stmt q n)) /\
  keeps (provisions U) ensureSchema.
Proof.
  split; [|split; [|split]].
  - intros ev w. split; [reflexivity | left; reflexivity].
  - intros w. unfold external.
    destruct (faults w (clock w)); (split; [reflexivity | left; reflexivity]).
  - intros q n Hq w. unfold run_stmt.
    destruct (exec q (now w n) (db w)) as [e|[rows d]] eqn:E;
      [split; [reflexivity | left; reflexivity]|].
    destruct (exec_rows _ _ _ _ _ E) as (Hp & [Hu|(U' & b & -> & Hf & Hu)]).
    + split; [exact Hp | left; exact Hu].
    + cbn in Hq. subst U'. split; [exact Hp|]. right. split; [exact Hf|]. eauto.
  - intros w. destruct (ensureSchema_store w) as (_ & Hu & Hp & _).
    split; [exact Hp | left; exact Hu].
Qed.

Lemma handler_dev_rows (req : Request) (w : World) (U : string) :
  truthy (headers req !! "x-user-id") = Some U -> provisions U w (snd (handler req w)).
Proof.
  intros HU. destruct (provisions_steps U) as (He & Hx & Hs & Hb).
  assert (Hins : forall U', truthy (headers req !! "x-user-id") = Some U' ->
                            insert_only_for U (InsertUser U' true)).
  { intros U' HU'. cbn. congruence. }
  exact (keeps_handler (provisions U) (insert_only_for U)
           (provisions_refl U) (provisions_trans U) He Hx Hs Hb req
           (fun _ => I) (fun _ => I) (fun _ => I) Hins w).
Qed.



Lemma find_absent_not_in (U : string) (l : list User) :
  List.find (has_id U) l = None -> ~ In U (map id l).
Proof.
  intros Hf Hin. apply in_map_iff in Hin as (u & Hid & Hin).
  apply (proj1 (has_id_false u U) (find_none _ _ Hf u Hin)). exact Hid.
Qed.

(** X7.  The handler keeps the primary key of [users]: if no two rows
    share an id before a request, none do after it, whatever the request
    and whatever fails. *)
Theorem handler_keeps_primary_key (req : Request) (w : World) :
  NoDup (map id (user_rows (db w))) ->
  NoDup (map id (user_rows (db (snd (handler req w))))).
Proof.
  intros Hnd. destruct (truthy (headers req !! "x-user-id")) as [U|] eqn:HU.
  - destruct (handler_dev_rows req w U HU) as (_ & [->|(Hf & t & ->)]); [exact Hnd|].
    rewrite map_app. cbn [map new_user id].
    apply NoDup_app. split; [exact Hnd|]. split.
    + intros x Hx Hx'. apply list_elem_of_In in Hx, Hx'.
      destruct Hx' as [<-|[]]. exact (find_absent_not_in U _ Hf Hx).
    + apply NoDup_singleton.
  - destruct (handler_nodev_rows req w HU) as [-> _]. exact Hnd.
Qed.

Lemma handler_keeps_primary_key_witness :
  NoDup (map id (user_rows (db (snd (handler (dev_request "carol") small_world))))).
Proof.
  apply handler_keeps_primary_key.
  cbn. repeat (apply NoDup_cons_2 || apply NoDup_nil_2);
    rewrite ?list_elem_of_In; cbn; intuition discriminate.
Defined.

(** ** The same request twice *)

Lemma fault_free_after (w : World) (d : Database) (k : nat) (evs : list Event) :
  fault_free w -> fault_free (world_after w d k evs).
Proof. intros H n. apply H. Qed.

(** X8.  A dev-header request repeated on a store that answers gets the
    reply of the first time, row for row: a provisioned user keeps the
    [created_at] of the request that created it, and the second request
    leaves the store as the first one left it. *)
Theorem repeated_dev_request_is_stable (req : Request) (w : World) (U : string) :
  fault_free w ->
  headers req !! "x-user-id" = Some U ->
  U <> EmptyString ->
  let first := handler req w in
  let second := handler req (snd first) in
  fst second = fst first /\
  db (snd second) = db (snd first) /\
  exists u p pt, fst first = inr (mkResponse 200 (BodyProfile u p pt)) /\ id u = U.
Proof.
  intros H Hx HU. pose proof (dev_header req U Hx HU) as Hd. cbv zeta.
  destruct (List.find (has_id U) (user_rows (db w))) as [u|] eqn:Hf.
  - rewrite (handler_dev_hit req w U u H Hd Hf). cbn [fst snd].
    match goal with
    | |- context [handler req ?W] =>
        rewrite (handler_dev_hit req W U u (fault_free_after _ _ _ _ H) Hd Hf)
    end.
    cbn [fst snd]. split; [reflexivity|]. split; [reflexivity|].
    eexists u, _, _. split; [reflexivity|].
    apply has_id_true. exact (proj2 (find_some _ _ Hf)).
  - pose proof (handler_dev_miss req w U H Hd Hf) as E. cbv zeta in E. rewrite E.
    cbn [fst snd].
    set (u := new_user U (now w (4 + clock w)%nat)) in *.
    assert (Hf' : List.find (has_id U) (user_rows (db w) ++ [u]) = Some u).
    { apply find_appended; [exact Hf | apply has_id_true; reflexivity]. }
    match goal with
    | |- context [handler req ?W] =>
        rewrite (handler_dev_hit req W U u (fault_free_after _ _ _ _ H) Hd Hf')
    end.
    cbn [fst snd]. split; [reflexivity|]. split; [reflexivity|].
    eexists u, _, _. split; reflexivity.
Qed.

Lemma repeated_dev_request_is_stable_witness :
  fault_free fresh_world /\
  fst (handler (dev_request "carol") (snd (handler (dev_request "carol") fresh_world))) =
    inr (mkResponse 200 (BodyProfile (new_user "carol" 1004) None None)).
Proof.
  assert (H : fault_free fresh_world) by (intros n; reflexivity).
  split; [exact H|].
  destruct (repeated_dev_request_is_stable (dev_request "carol") fresh_world "carol" H)
    as (E & _); [reflexivity | discriminate |].
  rewrite E. vm_compute. reflexivity.
Defined.

(** ** The three lookups *)

(** X12.  [getUserById] only reads.  When it returns a row, that row is in
    [users] and has the id asked for; when it returns null, no row has
    that id.  With the table in place and the call answered it returns
    normally, not finding being no error; without the table the store's
    error comes out. *)
Theorem getUserById_reads_one_row (userId : string) (w : World) :
  db (snd (getUserById userId w)) = db w /\
  (forall r w', getUserById userId w = (inr r, w') ->
     match r with
     | Some u => In u (user_rows (db w)) /\ id u = userId
     | None => forall u, In u (user_rows (db w)) -> id u <> userId
     end) /\
  (faults w (clock w) = None -> users (db w) <> None ->
   exists r w', getUserById userId w = (inr r, w')) /\
  (faults w (clock w) = None -> users (db w) = None ->
   exists e, fst (getUserById userId w) = inl e /\
             exn_message e = ("relation " ++ quoted "users" ++ " does not exist")%string).
Proof.
  destruct w as [[us ps] l c tr f nw]. unfold getUserById.
  rewrite bind_eq, pool_query_mk. cbn [db faults clock users user_rows exec].
  destruct (f c) as [e|]; [repeat split; try discriminate|].
  destruct us as [rows|]; cbn [default];
    [|repeat split; try discriminate; try congruence; eexists; split; reflexivity].
  rewrite ret_eq, first_user_select. cbn [fst snd db].
  split; [reflexivity|]. split; [|split; [eauto|intros _ [=]]].
  intros r w' [= <- _].
  destruct (List.find (has_id userId) rows) as [u|] eqn:Hf.
  - destruct (find_some _ _ Hf) as [Hin Hid]. split; [exact Hin|].
    apply has_id_true, Hid.
  - intros u Hin. apply has_id_false. exact (find_none _ _ Hf u Hin).
Qed.

Lemma getUserById_reads_one_row_witness :
  fst (getUserById "bob" small_world) = inr (Some bob) /\
  exists e, fst (getUserById "bob" fresh_world) = inl e /\
            exn_message e = ("relation " ++ quoted "users" ++ " does not exist")%string.
Proof.
  destruct (getUserById_reads_one_row "bob" small_world) as (_ & _ & Hok & _).
  destruct (getUserById_reads_one_row "bob" fresh_world) as (_ & _ & _ & Herr).
  split; [|apply Herr; reflexivity].
  destruct Hok as (r & w' & E); [reflexivity | discriminate |].
  vm_compute. reflexivity.
Defined.

(** X13.  [getUserByToken] only reads.  A row it returns is in [users] and
    holds exactly the token asked for, so a row whose token is NULL is
    never returned; null means that no row holds the token.  With the
    table in place and the call answered it returns normally. *)
Theorem getUserByToken_reads_one_row (tok : string) (w : World) :
  db (snd (getUserByToken tok w)) = db w /\
  (forall r w', getUserByToken tok w = (inr r, w') ->
     match r with
     | Some u => In u (user_rows (db w)) /\ token u = Some tok
     | None => forall u, In u (user_rows (db w)) -> token u <> Some tok
     end) /\
  (faults w (clock w) = None -> users (db w) <> None ->
   exists r w', getUserByToken tok w = (inr r, w')) /\
  (faults w (clock w) = None -> users (db w) = None ->
   exists e, fst (getUserByToken tok w) = inl e /\
             exn_message e = ("relation " ++ quoted "users" ++ " does not exist")%string).
Proof.
  destruct w as [[us ps] l c tr f nw]. unfold getUserByToken.
  rewrite bind_eq, pool_query_mk. cbn [db faults clock users user_rows exec].
  destruct (f c) as [e|]; [repeat split; try discriminate|].
  destruct us as [rows|]; cbn [default];
    [|repeat split; try discriminate; try congruence; eexists; split; reflexivity].
  rewrite ret_eq, first_user_select. cbn [fst snd db].
  split; [reflexivity|]. split; [|split; [eauto|intros _ [=]]].
  intros r w' [= <- _].
  destruct (List.find (has_token tok) rows) as [u|] eqn:Hf.
  - destruct (find_some _ _ Hf) as [Hin Hid]. split; [exact Hin|].
    unfold has_token in Hid. apply bool_decide_eq_true in Hid. exact Hid.
  - intros u Hin. apply has_token_false. exact (find_none _ _ Hf u Hin).
Qed.

Lemma getUserByToken_reads_one_row_witness :
  fst (getUserByToken "s3cret" small_world) = inr (Some alice) /\
  exists e, fst (getUserByToken "s3cret" fresh_world) = inl e /\
            exn_message e = ("relation " ++ quoted "users" ++ " does not exist")%string.
Proof.
  destruct (getUserByToken_reads_one_row "s3cret" small_world) as (_ & _ & Hok & _).
  destruct (getUserByToken_reads_one_row "s3cret" fresh_world) as (_ & _ & _ & Herr).
  split; [|apply Herr; reflexivity].
  destruct Hok as (r & w' & E); [reflexivity | discriminate |].
  vm_compute. reflexivity.
Defined.

(** X14.  [getProfileForUser] only reads.  A row it returns is in
    [profiles] and belongs to the user asked for; null means the user has
    no profile row.  With the table in place and the call answered it
    returns normally; without the table the store's error comes out. *)
Theorem getProfileForUser_reads_one_row (userId : string) (w : World) :
  db (snd (getProfileForUser userId w)) = db w /\
  (forall r w', getProfileForUser userId w = (inr r, w') ->
     match r with
     | Some p => In p (profile_rows (db w)) /\ user_id p = userId
     | None => forall p, In p (profile_rows (db w)) -> user_id p <> userId
     end) /\
  (faults w (clock w) = None -> profiles (db w) <> None ->
   exists r w', getProfileForUser userId w = (inr r, w')) /\
  (faults w (clock w) = None -> profiles (db w) = None ->
   exists e, fst (getProfileForUser userId w) = inl e /\
             exn_message e = ("relation " ++ quoted "profiles" ++ " does not exist")%string).
Proof.
  destruct w as [[us ps] l c tr f nw]. unfold getProfileForUser.
  rewrite bind_eq, pool_query_mk. cbn [db faults clock profiles profile_rows exec].
  destruct (f c) as [e|]; [repeat split; try discriminate|].
  destruct ps as [rows|]; cbn [default];
    [|repeat split; try discriminate; try congruence; eexists; split; reflexivity].
  rewrite ret_eq, first_profile_select. cbn [fst snd db].
  split; [reflexivity|]. split; [|split; [eauto|intros _ [=]]].
  intros r w' [= <- _].
  destruct (List.find (has_user_id userId) rows) as [p|] eqn:Hf.
  - destruct (find_some _ _ Hf) as [Hin Hid]. split; [exact Hin|].
    unfold has_user_id in Hid. apply bool_decide_eq_true in Hid. exact Hid.
  - intros p Hin. pose proof (find_none _ _ Hf p Hin) as Hid.
    unfold has_user_id in Hid. apply bool_decide_eq_false in Hid. exact Hid.
Qed.

Lemma getProfileForUser_reads_one_row_witness :
  fst (getProfileForUser "alice" small_world) = inr (Some alice_profile) /\
  exists e, fst (getProfileForUser "alice" fresh_world) = inl e /\
            exn_message e = ("relation " ++ quoted "profiles" ++ " does not exist")%string.
Proof.
  destruct (getProfileForUser_reads_one_row "alice" small_world) as (_ & _ & Hok & _).
  destruct (getProfileForUser_reads_one_row "alice" fresh_world) as (_ & _ & _ & Herr).
  split; [|apply Herr; reflexivity].
  destruct Hok as (r & w' & E); [reflexivity | discriminate |].
  vm_compute. reflexivity.
Defined.

(** X11.  Running the bootstrap first is what makes the lookups safe: on
    any store, tables or none, once [ensureSchema] has returned on a
    store that answers, each of the three lookups returns normally with
    the first matching row of the table as it was, or null. *)
Theorem bootstrap_makes_lookups_safe (w : World) (userId tok : string) :
  fault_free w ->
  (exists w', (do! ensureSchema in getUserById userId) w =
                (inr (List.find (has_id userId) (user_rows (db w))), w')) /\
  (exists w', (do! ensureSchema in getUserByToken tok) w =
                (inr (List.find (has_token tok) (user_rows (db w))), w')) /\
  (exists w', (do! ensureSchema in getProfileForUser userId) w =
                (inr (List.find (has_user_id userId) (profile_rows (db w))), w')).
Proof.
  intros H.
  repeat split; rewrite (bind_ok _ _ _ _ _ (ensureSchema_ok w H));
    unfold getUserById, getUserByToken, getProfileForUser;
    fields w H; unfold world_after, bootstrapped;
    cbn [db leased clock trace faults now users profiles user_rows profile_rows];
    run H; eexists; reflexivity.
Qed.

Lemma bootstrap_makes_lookups_safe_witness :
  fault_free fresh_world /\
  fst ((do! ensureSchema in getUserById "bob") fresh_world) = inr None /\
  fst (getUserById "bob" fresh_world) = inl (undefined_table users_table).
Proof.
  assert (H : fault_free fresh_world) by (intros n; reflexivity).
  split; [exact H|]. split; [|vm_compute; reflexivity].
  destruct (bootstrap_makes_lookups_safe fresh_world "bob" "t" H) as ((w' & E) & _).
  rewrite E. reflexivity.
Defined.

(** ** Reading the headers *)

Lemma prefix_cons (a b : ascii) (s t : string) :
  String.prefix (String a s) (String b t) = true -> a = b /\ String.prefix s t = true.
Proof.
  cbn. destruct (ascii_dec a b) as [->|]; [auto | discriminate].
Qed.

(** X15.  The token is what follows the seven characters of the prefix,
    and nothing else is a bearer credential: [bearer_of a] is [t] exactly
    when [a] is [Bearer ] followed by [t], letter case and the single
    space included. *)
Theorem bearer_of_iff (a t : string) :
  bearer_of a = Some t <-> a = ("Bearer " ++ t)%string.
Proof.
  split; [|intros ->; apply bearer_of_prefixed].
  unfold bearer_of. destruct (String.prefix "Bearer " a) eqn:E; [|discriminate].
  intros [= <-].
  do 7 (destruct a as [|? a]; [discriminate E|];
        apply prefix_cons in E as [<- E]).
  reflexivity.
Qed.

Lemma bearer_of_iff_witness :
  bearer_of "Bearer abc" = Some "abc" /\ bearer_of "bearer abc" = None /\
  bearer_of "Bearer" = None.
Proof.
  split; [apply bearer_of_iff; reflexivity|].
  split.
  - destruct (bearer_of "bearer abc") as [t|] eqn:E; [|reflexivity].
    apply bearer_of_iff in E. discriminate E.
  - destruct (bearer_of "Bearer") as [t|] eqn:E; [|reflexivity].
    apply bearer_of_iff in E. discriminate E.
Defined.

(** Two requests that give the same id, and the same token where the id
    does not decide, give the same run. *)
Lemma handler_same_credentials (req1 req2 : Request) (w : World) :
  truthy (headers req1 !! "x-user-id") = truthy (headers req2 !! "x-user-id") ->
  (truthy (headers req1 !! "x-user-id") = None ->
   truthy (bearer_of (or_empty (headers req1 !! "authorization"))) =
   truthy (bearer_of (or_empty (headers req2 !! "authorization")))) ->
  handler req1 w = handler req2 w.
Proof.
  intros Hd Hb. unfold handler, handler_try. rewrite !truthy_or_null, <- Hd.
  destruct (truthy (headers req1 !! "x-user-id")) as [U|]; [reflexivity|].
  rewrite (Hb eq_refl). reflexivity.
Qed.

(** X16.  With a non-empty [x-user-id] the [Authorization] header plays no
    part at all: setting it to any value, or removing it, gives the same
    reply and the same world, under every fault schedule. *)
Theorem dev_id_makes_authorization_irrelevant
    (req : Request) (w : World) (U : string) (a : option string) :
  truthy (headers req !! "x-user-id") = Some U ->
  handler (with_authorization a req) w = handler req w.
Proof.
  intros HU.
  assert (Hx : headers (with_authorization a req) !! "x-user-id" = headers req !! "x-user-id").
  { destruct a as [v|]; cbn [with_authorization headers].
    - apply lookup_insert_ne. discriminate.
    - apply lookup_delete_ne. discriminate. }
  apply handler_same_credentials; rewrite Hx; [reflexivity|]. congruence.
Qed.

Lemma dev_id_makes_authorization_irrelevant_witness :
  handler (with_authorization (Some "Bearer s3cret") (dev_request "bob")) small_world =
  handler (dev_request "bob") small_world.
Proof.
  apply (dev_id_makes_authorization_irrelevant _ _ "bob"). reflexivity.
Defined.

(** X17.  An [x-user-id] header that is present but empty counts as
    absent: the run is that of the request without the header, so such a
    request is authenticated by its bearer token or not at all. *)
Theorem empty_dev_header_is_no_dev_header (req : Request) (w : World) :
  headers req !! "x-user-id" = Some EmptyString ->
  handler req w = handler (without_dev_id req) w.
Proof.
  intros Hx.
  assert (Hd : headers (without_dev_id req) !! "x-user-id" = None)
    by apply lookup_delete_eq.
  assert (Ha : headers (without_dev_id req) !! "authorization" =
               headers req !! "authorization")
    by (apply lookup_delete_ne; discriminate).
  apply handler_same_credentials; rewrite ?Hx, ?Hd, ?Ha; reflexivity.
Qed.

Lemma empty_dev_header_is_no_dev_header_witness :
  fst (handler (both_request EmptyString "Bearer s3cret") small_world) =
    inr (mkResponse 200 (BodyProfile alice (Some alice_profile) (Some "musician"))).
Proof.
  rewrite (empty_dev_header_is_no_dev_header (both_request EmptyString "Bearer s3cret"));
    [|reflexivity].
  vm_compute. reflexivity.
Defined.

(** X18.  No other header is read: adding, replacing or removing a header
    whose name is neither [x-user-id] nor [authorization] changes neither
    the reply nor the world after it. *)
Theorem other_headers_are_ignored
    (req : Request) (w : World) (name : string) (v : option string) :
  name <> "x-user-id" -> name <> "authorization" ->
  handler (mkRequest (match v with
                      | Some s => <[name := s]> (headers req)
                      | None => delete name (headers req)
                      end)) w = handler req w.
Proof.
  intros H1 H2.
  apply handler_same_credentials; cbn [headers]; destruct v;
    rewrite ?lookup_insert_ne, ?lookup_delete_ne by assumption; reflexivity.
Qed.

Lemma other_headers_are_ignored_witness :
  handler (mkRequest (<["cookie" := "x-user-id=bob"]> (headers no_headers))) small_world =
  handler no_headers small_world.
Proof.
  apply (other_headers_are_ignored no_headers small_world "cookie" (Some "x-user-id=bob"));
    discriminate.
Defined.

(** ** Loading the module *)

(** X19.  Once a load has put a pool in [global.__pgPool], every later
    load returns that very pool and constructs none, whatever the
    environment then holds: a connection string that changed or went
    missing in between is not looked at again. *)
Theorem load_module_reuses_pool (p : Process) (e' : gmap string string) :
  let first := load_module p in
  let second := load_module (with_env e' (snd first)) in
  fst second = fst first /\
  pgPool (snd second) = Some (fst first) /\
  pools_made (snd second) = pools_made (snd first) /\
  (pools_made (snd first) <= S (pools_made p))%nat.
Proof.
  cbv zeta. unfold load_module, with_env.
  destruct (pgPool p) as [q|]; cbn; repeat split; try reflexivity; lia.
Qed.

(** X20.  The connection string is [POSTGRES_URL] when that is a non-empty
    string and [DATABASE_URL] otherwise; the first load of a process
    constructs its pool with it.  When neither variable gives a non-empty
    string one line is logged, and the load still goes through with a
    pool in place: nothing fails before the first query. *)
Theorem load_module_reads_environment (p : Process) :
  (forall s, env p !! "POSTGRES_URL" = Some s -> s <> EmptyString ->
             DATABASE_URL p = Some s) /\
  (truthy (env p !! "POSTGRES_URL") = None -> DATABASE_URL p = env p !! "DATABASE_URL") /\
  (pgPool p = None -> connectionString (fst (load_module p)) = DATABASE_URL p) /\
  pgPool (snd (load_module p)) = Some (fst (load_module p)) /\
  (truthy (env p !! "POSTGRES_URL") = None -> truthy (env p !! "DATABASE_URL") = None ->
   stderr (snd (load_module p)) = stderr p ++ [MISSING_URL]) /\
  (truthy (env p !! "POSTGRES_URL") <> None \/ truthy (env p !! "DATABASE_URL") <> None ->
   stderr (snd (load_module p)) = stderr p).
Proof.
  unfold load_module, DATABASE_URL, js_or.
  split; [intros s -> Hs; rewrite (truthy_nonempty s Hs); reflexivity|].
  split; [intros ->; reflexivity|].
  split; [intros ->; reflexivity|].
  split; [destruct (pgPool p); reflexivity|].
  split.
  - intros -> ->. destruct (pgPool p); reflexivity.
  - intros Hor.
    destruct (truthy (env p !! "POSTGRES_URL")) as [s|] eqn:E1.
    + destruct s; [destruct (env p !! "POSTGRES_URL") as [[|]|]; discriminate|].
      destruct (pgPool p); reflexivity.
    + destruct Hor as [Hor|Hor]; [congruence|].
      destruct (truthy (env p !! "DATABASE_URL")) as [s|] eqn:E2; [|congruence].
      destruct s; [destruct (env p !! "DATABASE_URL") as [[|]|]; discriminate|].
      destruct (pgPool p); reflexivity.
Qed.

Lemma load_module_reads_environment_witness :
  connectionString (fst (load_module (bare_process {["DATABASE_URL" := "postgres://db"]}))) =
    Some "postgres://db" /\
  stderr (snd (load_module (bare_process ∅))) = [MISSING_URL].
Proof.
  split.
  - destruct (load_module_reads_environment
                (bare_process {["DATABASE_URL" := "postgres://db"]}))
      as (_ & Hurl & Hpool & _).
    rewrite (Hpool eq_refl). apply Hurl. reflexivity.
  - destruct (load_module_reads_environment (bare_process ∅)) as (_ & _ & _ & _ & Hlog & _).
    apply Hlog; reflexivity.
Defined.

(** ** Every run of the handler, fault by fault *)

Ltac scheduled n e H :=
  exists n, e; split; [cbn; lia | split; [exact H|]].

Ltac caught_fault :=
  match goal with
  | H : ?f ?n = Some ?e, H' : ?f ?m = None |- _ =>
      scheduled n e H; split; [exact H' | reflexivity]
  end.

Ltac escaped_fault :=
  match goal with
  | H : ?f ?n = Some ?e, H' : ?f ?m = Some ?e' |- _ =>
      scheduled n e H; eexists _, _; split; [exact H' | reflexivity]
  end.

Lemma handler_outcomes (req : Request) (w : World) :
  (exists reply w',
     handler req w = (inr reply, w') /\
     (reply = mkResponse 401 MISSING_AUTH \/
      reply = mkResponse 401 INVALID_AUTH \/
      (exists u, reply = ok_profile u (db w) /\ In u (user_rows (db w'))) \/
      (exists n e, (clock w <= n < clock w + 8)%nat /\ faults w n = Some e /\
                   faults w (S n) = None /\
                   reply = mkResponse 500 (SERVER_ERROR e)))) \/
  (exists n e, (clock w <= n < clock w + 8)%nat /\ faults w n = Some e /\
               exists e' w', faults w (S n) = Some e' /\ handler req w = (inl e', w')).
Proof.
  destruct w as [d l c tr f nw]. cbn [db clock faults].
  all_runs;
    first [ right; escaped_fault
          | left; eexists _, _; (split; [reflexivity|]);
            first [ left; reflexivity
                  | right; left; reflexivity
                  | right; right; right; caught_fault
                  | right; right; left; eexists; split; [reflexivity|];
                    cbn [db user_rows users default];
                    match goal with
                    | H : List.find _ _ = Some _ |- _ => exact (proj1 (find_some _ _ H))
                    end ] ].
Qed.

(** X3.  Every run ends in one of five ways, under every fault schedule:
    the missing-credentials 401, the invalid-credentials 401, a 200 for a
    user who is a row of [users] after the request, with that user's
    profile, a 500 that reports the exception thrown by one of the at
    most eight external calls of the request, or, when sending that 500
    throws too, the exception of the send leaving the handler.  The
    handler's own statements never fail on the store by themselves, so on
    a store that answers every call there is a reply and it is no 500. *)
Theorem every_reply_is_accounted_for (req : Request) (w : World) :
  ((exists reply w',
      handler req w = (inr reply, w') /\
      (reply = mkResponse 401 MISSING_AUTH \/
       reply = mkResponse 401 INVALID_AUTH \/
       (exists u, reply = ok_profile u (db w) /\ In u (user_rows (db w'))) \/
       (exists n e, (clock w <= n < clock w + 8)%nat /\ faults w n = Some e /\
                    faults w (S n) = None /\
                    reply = mkResponse 500 (SERVER_ERROR e)))) \/
   (exists n e, (clock w <= n < clock w + 8)%nat /\ faults w n = Some e /\
                exists e' w', faults w (S n) = Some e' /\ handler req w = (inl e', w'))) /\
  (fault_free w ->
   exists reply w', handler req w = (inr reply, w') /\ status reply <> 500).
Proof.
  pose proof (handler_outcomes req w) as Hout. split; [exact Hout|].
  intros H.
  destruct Hout as [(reply & w' & E & Hshape)|(n & e & _ & Hn & _)].
  - exists reply, w'. split; [exact E|].
    destruct Hshape as [->|[->|[(u & -> & _)|(n & e & _ & Hn & _)]]];
      try discriminate.
    rewrite (H n) in Hn. discriminate Hn.
  - rewrite (H n) in Hn. discriminate Hn.
Qed.

Lemma every_reply_is_accounted_for_witness :
  fault_free small_world /\
  fst (handler (dev_request "bob") small_world) =
    inr (mkResponse 200 (BodyProfile bob None None)).
Proof.
  assert (H : fault_free small_world) by (intros n; reflexivity).
  split; [exact H|].
  destruct (every_reply_is_accounted_for (dev_request "bob") small_world)
    as (_ & Hok).
  destruct (Hok H) as (reply & w' & E & _).
  assert (Hr : @inr Exn Response reply = fst (handler (dev_request "bob") small_world))
    by (rewrite E; reflexivity).
  vm_compute in Hr. injection Hr as ->. rewrite E. reflexivity.
Defined.

Ltac last_event :=
  flat_trace;
  match goal with
  | |- exists evs, ?tr ++ ?L = ?tr ++ evs ++ [EvRespond _] /\ _ =>
      exists (removelast L); split; [reflexivity | cbn; repeat constructor]
  | |- exists evs, ?tr ++ ?L = ?tr ++ evs ++ [] /\ _ =>
      exists L; split; [rewrite app_nil_r; reflexivity | repeat constructor]
  end.

Lemma handler_trace (req : Request) (w : World) :
  exists r w',
    handler req w = (r, w') /\
    exists evs,
      trace w' = trace w ++ evs ++
                 match r with inr reply => [EvRespond reply] | inl _ => [] end /\
      Forall not_respond evs.
Proof.
  destruct w as [d l c tr f nw]. cbn [trace].
  all_runs; eexists _, _; (split; [reflexivity|]); cbv beta iota; last_event.
Qed.

(** X2.  No request is answered twice, whatever fails.  When the handler
    returns, the reply it returns is the one reply that was sent, and
    sending it was the last thing the handler did; when the handler
    throws, which is when sending the 500 failed, no reply was sent. *)
Theorem handler_never_replies_twice (req : Request) (w : World) :
  match fst (handler req w) with
  | inr reply =>
      exists evs,
        issued (handler req) w = evs ++ [EvRespond reply] /\
        forall r, ~ In (EvRespond r) evs
  | inl _ => forall r, ~ In (EvRespond r) (issued (handler req) w)
  end.
Proof.
  destruct (handler_trace req w) as (r & w' & E & evs & Htr & Hno).
  assert (Hnone : forall r0, ~ In (EvRespond r0) evs).
  { intros r0 Hin. rewrite List.Forall_forall in Hno. exact (Hno _ Hin). }
  pose proof (issued_of (handler req) w) as Hiss. rewrite E in *. cbn [fst snd] in *.
  destruct r as [e|reply].
  - rewrite (Hiss _ Htr), app_nil_r. exact Hnone.
  - exists evs. split; [apply Hiss; exact Htr | exact Hnone].
Qed.

Lemma handler_never_replies_twice_witness :
  (forall r, ~ In (EvRespond r) (issued (handler no_headers) (failing_world 2 boom))) /\
  exists evs,
    issued (handler no_headers) (faulty_world 2 boom) =
      evs ++ [EvRespond (mkResponse 500 (SERVER_ERROR boom))].
Proof.
  split.
  - pose proof (handler_never_replies_twice no_headers (failing_world 2 boom)) as H.
    assert (E : fst (handler no_headers (failing_world 2 boom)) = inl boom)
      by (vm_compute; reflexivity).
    rewrite E in H. exact H.
  - pose proof (handler_never_replies_twice no_headers (faulty_world 2 boom)) as H.
    assert (E : fst (handler no_headers (faulty_world 2 boom)) =
                inr (mkResponse 500 (SERVER_ERROR boom)))
      by (vm_compute; reflexivity).
    rewrite E in H. destruct H as (evs & Hev & _). exists evs. exact Hev.
Defined.

(** X4.  On a store that answers every call the two 401s are decided by
    the credentials alone.  The missing-credentials reply is given
    exactly when there is neither a non-empty [x-user-id] nor a non-empty
    bearer token; the invalid-credentials reply exactly when there is no
    non-empty [x-user-id] and the non-empty bearer token is held by no
    row.  A request with a dev header is therefore never refused. *)
Theorem credentials_decide_the_401 (req : Request) (w : World) :
  fault_free w ->
  let dev := truthy (headers req !! "x-user-id") in
  let bearer := truthy (bearer_of (or_empty (headers req !! "authorization"))) in
  (fst (handler req w) = inr (mkResponse 401 MISSING_AUTH) <->
   dev = None /\ bearer = None) /\
  (fst (handler req w) = inr (mkResponse 401 INVALID_AUTH) <->
   dev = None /\ exists T, bearer = Some T /\
                           forall u, In u (user_rows (db w)) -> token u <> Some T).
Proof.
  intros H dev bearer. subst dev bearer.
  destruct (truthy (headers req !! "x-user-id")) as [U|] eqn:HU;
    pose proof HU as Hd; rewrite <- truthy_or_null in Hd.
  - assert (E : exists u, fst (handler req w) = inr (ok_profile u (db w))).
    { destruct (List.find (has_id U) (user_rows (db w))) as [u|] eqn:Hf.
      - rewrite (handler_dev_hit req w U u H Hd Hf). eauto.
      - pose proof (handler_dev_miss req w U H Hd Hf) as E. cbv zeta in E.
        rewrite E. eauto. }
    destruct E as [u ->].
    split; (split; [discriminate | intros [[=] _]]).
  - destruct (truthy (bearer_of (or_empty (headers req !! "authorization"))))
      as [T|] eqn:HT.
    + destruct (List.find (has_token T) (user_rows (db w))) as [u|] eqn:Hf.
      * rewrite (handler_bearer_hit req w T u H Hd HT Hf). cbn [fst].
        split; (split; [discriminate|]).
        -- intros [_ [=]].
        -- intros (_ & T' & [= <-] & Hno). exfalso.
           destruct (find_some _ _ Hf) as [Hin Htok].
           apply (Hno u Hin). unfold has_token in Htok.
           apply bool_decide_eq_true in Htok. exact Htok.
      * rewrite (handler_bearer_miss req w T H Hd HT Hf). cbn [fst].
        split; split.
        -- discriminate.
        -- intros [_ [=]].
        -- intros _. split; [reflexivity|]. exists T. split; [reflexivity|].
           intros u Hin. apply has_token_false. exact (find_none _ _ Hf u Hin).
        -- intros _. reflexivity.
    + rewrite (handler_missing req w H Hd HT). cbn [fst].
      split; split.
      * intros _. split; reflexivity.
      * intros _. reflexivity.
      * discriminate.
      * intros (_ & T & [=] & _).
Qed.

Lemma credentials_decide_the_401_witness :
  fault_free small_world /\
  fst (handler (auth_request "Basic abc") small_world) = inr (mkResponse 401 MISSING_AUTH).
Proof.
  assert (H : fault_free small_world) by (intros n; reflexivity).
  split; [exact H|].
  destruct (credentials_decide_the_401 (auth_request "Basic abc") small_world H) as [Hm _].
  apply Hm. split; reflexivity.
Defined.

(** X9.  Whether the tables were there makes no difference to the caller:
    under every fault schedule the reply on a store is the reply on the
    same store with its missing tables created empty. *)
Theorem missing_tables_do_not_change_the_reply (req : Request) (w : World) :
  fst (handler req w) =
  fst (handler req (mkWorld (bootstrapped (db w)) (leased w) (clock w) (trace w)
                            (faults w) (now w))).
Proof.
  destruct w as [d l c tr f nw]. cbn [db leased clock trace faults now].
  unfold handler, try_catch, handler_try, console_error, SERVER_ERROR.
  rewrite !bind_eq, !ensureSchema_run.
  destruct (f c); [settle; repeat (break_match; settle); reflexivity|].
  destruct (f (S c)); [settle; repeat (break_match; settle); reflexivity|].
  destruct (f (S (S c))); [settle; repeat (break_match; settle); reflexivity|].
  reflexivity.
Qed.

Lemma missing_tables_do_not_change_the_reply_witness :
  fst (handler (dev_request "carol") fresh_world) =
  fst (handler (dev_request "carol")
         (mkWorld (mkDatabase (Some []) (Some [])) 0 0 [] no_faults wall_clock)).
Proof. exact (missing_tables_do_not_change_the_reply (dev_request "carol") fresh_world). Defined.
